(** * Sync/Async API demo: ingress guard, egress validator, request ledger
      and callback dispatcher

    A shallow embedding of [src/main.py], [src/services.py],
    [src/models.py] and the input validation of [src/work_processor.py].

    - Python [str] values are modelled by [string], a character standing
      for the code point of its number (below 256); the statements about
      URLs are made for ASCII text, the only text the embedded functions
      compare against.
    - Python [int] is [Z]; [time.time()] and delays are exact rationals [Q]
      (seconds), so rounding of floating point values is not modelled.
    - Dictionaries are finite maps ([gmap]) keyed by strings.
    - An exception that leaves a function is an explicit result value.

    The two standard-library calls the validator relies on,
    [urllib.parse.urlparse] and [ipaddress.ip_address], are transcribed from
    CPython 3.11 ([Lib/urllib/parse.py], [Lib/ipaddress.py]). *)

From Stdlib Require Import ZArith QArith Lqa Lia Bool Ascii String List Sorted.
From stdpp Require Import gmap strings list fin_maps pretty.

Local Open Scope string_scope.
Local Open Scope list_scope.
Local Open Scope Z_scope.

(** ** Python string primitives *)

Module PyStr.

(** [c in s] for a one-character [c]. *)
Fixpoint contains (c : ascii) (s : string) : bool :=
  match s with
  | EmptyString => false
  | String a s' => if Ascii.eqb a c then true else contains c s'
  end.

(** [s.startswith(p)]. *)
Definition startswith (p s : string) : bool := String.prefix p s.

(** [s.partition(c)]: text before the first [c], whether [c] was found,
    text after it.  Python returns [(s, '', '')] when [c] is absent. *)
Fixpoint partition (c : ascii) (s : string) : string * bool * string :=
  match s with
  | EmptyString => (EmptyString, false, EmptyString)
  | String a s' =>
      if Ascii.eqb a c then (EmptyString, true, s')
      else let '(b, found, r) := partition c s' in (String a b, found, r)
  end.

(** [s.rpartition(c)]: split at the last [c]; [('', '', s)] when absent. *)
Fixpoint rpartition (c : ascii) (s : string) : string * bool * string :=
  match s with
  | EmptyString => (EmptyString, false, EmptyString)
  | String a s' =>
      let '(b, found, r) := rpartition c s' in
      if found then (String a b, true, r)
      else if Ascii.eqb a c then (EmptyString, true, s')
      else (EmptyString, false, String a r)
  end.

(** [s.split(c)]. *)
Fixpoint split (c : ascii) (s : string) : list string :=
  match s with
  | EmptyString => [EmptyString]
  | String a s' =>
      if Ascii.eqb a c then EmptyString :: split c s'
      else match split c s' with
           | h :: t => String a h :: t
           | [] => [String a EmptyString]
           end
  end.

(** [s.replace(c, "")]. *)
Fixpoint remove (c : ascii) (s : string) : string :=
  match s with
  | EmptyString => EmptyString
  | String a s' => if Ascii.eqb a c then remove c s' else String a (remove c s')
  end.

(** [s.lstrip(chars)]. *)
Fixpoint lstrip (chars : string) (s : string) : string :=
  match s with
  | EmptyString => EmptyString
  | String a s' => if contains a chars then lstrip chars s' else s
  end.

Definition in_range (lo hi : nat) (c : ascii) : bool :=
  let n := nat_of_ascii c in (lo <=? n)%nat && (n <=? hi)%nat.

Definition is_digit (c : ascii) : bool := in_range 48 57 c.
Definition is_upper (c : ascii) : bool := in_range 65 90 c.
Definition is_lower (c : ascii) : bool := in_range 97 122 c.
Definition is_alpha (c : ascii) : bool := is_upper c || is_lower c.
Definition is_hexdigit (c : ascii) : bool :=
  is_digit c || in_range 65 70 c || in_range 97 102 c.

Definition lower_char (c : ascii) : ascii :=
  if is_upper c then ascii_of_nat (nat_of_ascii c + 32) else c.

(** [s.lower()] on ASCII text. *)
Fixpoint lower (s : string) : string :=
  match s with
  | EmptyString => EmptyString
  | String a s' => String (lower_char a) (lower s')
  end.

Fixpoint all_chars (p : ascii -> bool) (s : string) : bool :=
  match s with
  | EmptyString => true
  | String a s' => p a && all_chars p s'
  end.

(** [x in xs] for a list of strings. *)
Definition mem (x : string) (xs : list string) : bool :=
  existsb (String.eqb x) xs.

(** Longest prefix without a character satisfying [stop], and the rest. *)
Fixpoint break_at (stop : ascii -> bool) (s : string) : string * string :=
  match s with
  | EmptyString => (EmptyString, EmptyString)
  | String a s' =>
      if stop a then (EmptyString, s)
      else let '(b, r) := break_at stop s' in (String a b, r)
  end.

Definition digit_val (c : ascii) : Z :=
  if is_digit c then Z.of_nat (nat_of_ascii c) - 48
  else if in_range 65 70 c then Z.of_nat (nat_of_ascii c) - 55
  else Z.of_nat (nat_of_ascii c) - 87.

(** [int(s, base)] for a non-empty run of valid digits. *)
Definition int_of (base : Z) (s : string) : Z :=
  fold_left (fun acc c => acc * base + digit_val c) (list_ascii_of_string s) 0.

End PyStr.

(** ** [ipaddress.ip_address] (CPython 3.11) *)

Module ipaddress.
Import PyStr.

Inductive ip : Type :=
| IPv4Address (n : Z)
| IPv6Address (n : Z) (scope_id : option string).

(** [IPv4Address._parse_octet]; [None] stands for [ValueError]. *)
Definition _parse_octet (octet_str : string) : option Z :=
  if String.eqb octet_str "" then None
  else if negb (all_chars is_digit octet_str) then None
  else if (3 <? String.length octet_str)%nat then None
  else if negb (String.eqb octet_str "0") && startswith "0" octet_str then None
  else let octet_int := int_of 10 octet_str in
       if 255 <? octet_int then None else Some octet_int.

(** [IPv4Address._ip_int_from_string]. *)
Definition v4_int_from_string (ip_str : string) : option Z :=
  if String.eqb ip_str "" then None
  else match split "." ip_str with
       | [a; b; c; d] =>
           match _parse_octet a, _parse_octet b, _parse_octet c, _parse_octet d with
           | Some a, Some b, Some c, Some d =>
               Some (Z.lor (Z.shiftl a 24) (Z.lor (Z.shiftl b 16) (Z.lor (Z.shiftl c 8) d)))
           | _, _, _, _ => None
           end
       | _ => None
       end.

(** [IPv4Address(address)] for a string argument. *)
Definition parse_v4 (addr_str : string) : option Z :=
  if contains "/" addr_str then None else v4_int_from_string addr_str.

(** [IPv6Address._parse_hextet]. *)
Definition _parse_hextet (hextet_str : string) : option Z :=
  if negb (all_chars is_hexdigit hextet_str) then None
  else if (4 <? String.length hextet_str)%nat then None
  else if String.eqb hextet_str "" then None
  else Some (int_of 16 hextet_str).

(** The two loops that fold hextets into the address. *)
Fixpoint fold_hextets (acc : Z) (parts : list string) : option Z :=
  match parts with
  | [] => Some acc
  | p :: ps =>
      match _parse_hextet p with
      | Some h => fold_hextets (Z.lor (Z.shiftl acc 16) h) ps
      | None => None
      end
  end.

(** Index of the single empty interior part, [Some None] when there is
    none, [None] when there are two (more than one double colon). *)
Fixpoint find_skip (i : nat) (interior : list string) (skip : option nat)
  : option (option nat) :=
  match interior with
  | [] => Some skip
  | p :: ps =>
      if String.eqb p "" then
        match skip with
        | Some _ => None
        | None => find_skip (S i) ps (Some i)
        end
      else find_skip (S i) ps skip
  end.

Definition _HEXTET_COUNT : nat := 8.

(** ['%x' % n] for [0 <= n < 65536]. *)
Definition hex_char (d : Z) : ascii :=
  if d <? 10 then ascii_of_nat (48 + Z.to_nat d) else ascii_of_nat (87 + Z.to_nat d).

Fixpoint format_x_aux (fuel : nat) (n : Z) (acc : string) : string :=
  match fuel with
  | O => acc
  | S fuel' =>
      let acc' := String (hex_char (n mod 16)) acc in
      if n / 16 =? 0 then acc' else format_x_aux fuel' (n / 16) acc'
  end.

Definition format_x (n : Z) : string := format_x_aux 4 n "".

(** [IPv6Address._ip_int_from_string]. *)
Definition v6_int_from_string (ip_str : string) : option Z :=
  if String.eqb ip_str "" then None
  else
    let parts := split ":" ip_str in
    if (List.length parts <? 3)%nat then None
    else
      (* an IPv4-style suffix is converted to two hextets *)
      let parts' :=
        if contains "." (List.last parts "") then
          match parse_v4 (List.last parts "") with
          | Some ipv4_int =>
              Some (List.removelast parts
                      ++ [format_x (Z.land (Z.shiftr ipv4_int 16) 65535);
                          format_x (Z.land ipv4_int 65535)])%list
          | None => None
          end
        else Some parts in
      match parts' with
      | None => None
      | Some parts =>
          let n := List.length parts in
          if (_HEXTET_COUNT + 1 <? n)%nat then None
          else
            match find_skip 1 (List.removelast (List.tl parts)) None with
            | None => None
            | Some (Some skip_index) =>
                let first_empty := String.eqb (List.hd "" parts) "" in
                let last_empty := String.eqb (List.last parts "") "" in
                let parts_hi :=
                  if first_empty then (skip_index - 1)%nat else skip_index in
                let parts_lo :=
                  if last_empty then (n - skip_index - 1 - 1)%nat
                  else (n - skip_index - 1)%nat in
                if first_empty && negb (parts_hi =? 0)%nat then None
                else if last_empty && negb (parts_lo =? 0)%nat then None
                else if (_HEXTET_COUNT <? parts_hi + parts_lo + 1)%nat then None
                else
                  let parts_skipped := (_HEXTET_COUNT - (parts_hi + parts_lo))%nat in
                  match fold_hextets 0 (firstn parts_hi parts) with
                  | None => None
                  | Some hi =>
                      fold_hextets (Z.shiftl hi (16 * Z.of_nat parts_skipped))
                                   (skipn (n - parts_lo) parts)
                  end
            | Some None =>
                if negb (n =? _HEXTET_COUNT)%nat then None
                else if String.eqb (List.hd "" parts) "" then None
                else if String.eqb (List.last parts "") "" then None
                else fold_hextets 0 parts
            end
      end.

(** [IPv6Address._split_scope_id]; the outer [None] is [AddressValueError]. *)
Definition _split_scope_id (ip_str : string) : option (string * option string) :=
  let '(addr, sep, scope_id) := partition "%" ip_str in
  if negb sep then Some (addr, None)
  else if String.eqb scope_id "" || contains "%" scope_id then None
  else Some (addr, Some scope_id).

(** [IPv6Address(address)] for a string argument. *)
Definition parse_v6 (addr_str : string) : option (Z * option string) :=
  if contains "/" addr_str then None
  else match _split_scope_id addr_str with
       | None => None
       | Some (addr, scope_id) =>
           match v6_int_from_string addr with
           | Some n => Some (n, scope_id)
           | None => None
           end
       end.

(** [ip_address(address)]; [None] stands for the final [ValueError]. *)
Definition ip_address (address : string) : option ip :=
  match parse_v4 address with
  | Some n => Some (IPv4Address n)
  | None =>
      match parse_v6 address with
      | Some (n, scope_id) => Some (IPv6Address n scope_id)
      | None => None
      end
  end.

(** A network is its address, its prefix length and the address width;
    [_BaseNetwork.__contains__] compares under the netmask. *)
Definition netmask (bits prefixlen : Z) : Z :=
  Z.shiftl (Z.ones prefixlen) (bits - prefixlen).

Definition in_network (bits : Z) (n : Z) (net : Z * Z) : bool :=
  Z.land n (netmask bits (snd net)) =? fst net.

Definition IPv4Network (addr : string) (prefixlen : Z) : Z * Z :=
  (default 0 (parse_v4 addr), prefixlen).

Definition IPv6Network (addr : string) (prefixlen : Z) : Z * Z :=
  (default 0 (v6_int_from_string addr), prefixlen).

Module _IPv4Constants.
Definition _loopback_network := IPv4Network "127.0.0.0" 8.
Definition _private_networks : list (Z * Z) :=
  [ IPv4Network "0.0.0.0" 8;
    IPv4Network "10.0.0.0" 8;
    IPv4Network "127.0.0.0" 8;
    IPv4Network "169.254.0.0" 16;
    IPv4Network "172.16.0.0" 12;
    IPv4Network "192.0.0.0" 24;
    IPv4Network "192.0.0.170" 31;
    IPv4Network "192.0.2.0" 24;
    IPv4Network "192.168.0.0" 16;
    IPv4Network "198.18.0.0" 15;
    IPv4Network "198.51.100.0" 24;
    IPv4Network "203.0.113.0" 24;
    IPv4Network "240.0.0.0" 4;
    IPv4Network "255.255.255.255" 32 ].
Definition _private_networks_exceptions : list (Z * Z) :=
  [ IPv4Network "192.0.0.9" 32;
    IPv4Network "192.0.0.10" 32 ].
End _IPv4Constants.

Module _IPv6Constants.
Definition _private_networks : list (Z * Z) :=
  [ IPv6Network "::1" 128;
    IPv6Network "::" 128;
    IPv6Network "::ffff:0:0" 96;
    IPv6Network "64:ff9b:1::" 48;
    IPv6Network "100::" 64;
    IPv6Network "2001::" 23;
    IPv6Network "2001:db8::" 32;
    IPv6Network "2002::" 16;
    IPv6Network "fc00::" 7;
    IPv6Network "fe80::" 10 ].
Definition _private_networks_exceptions : list (Z * Z) :=
  [ IPv6Network "2001:1::1" 128;
    IPv6Network "2001:1::2" 128;
    IPv6Network "2001:3::" 32;
    IPv6Network "2001:4:112::" 48;
    IPv6Network "2001:20::" 28;
    IPv6Network "2001:30::" 28 ].
End _IPv6Constants.

Definition v4_is_private (n : Z) : bool :=
  existsb (in_network 32 n) _IPv4Constants._private_networks
  && forallb (fun net => negb (in_network 32 n net))
             _IPv4Constants._private_networks_exceptions.

(** [IPv6Address.ipv4_mapped]. *)
Definition ipv4_mapped (n : Z) : option Z :=
  if negb (Z.shiftr n 32 =? 65535) then None else Some (Z.land n 4294967295).

Definition is_private (a : ip) : bool :=
  match a with
  | IPv4Address n => v4_is_private n
  | IPv6Address n _ =>
      match ipv4_mapped n with
      | Some m => v4_is_private m
      | None =>
          existsb (in_network 128 n) _IPv6Constants._private_networks
          && forallb (fun net => negb (in_network 128 n net))
                     _IPv6Constants._private_networks_exceptions
      end
  end.

Definition is_loopback (a : ip) : bool :=
  match a with
  | IPv4Address n => in_network 32 n _IPv4Constants._loopback_network
  | IPv6Address n _ => n =? 1
  end.

End ipaddress.

(** ** [urllib.parse.urlparse] (CPython 3.11)

    Only the scheme, the network location and the host derived from it are
    inspected by the service; the remainder of the URL (path, parameters,
    query, fragment) is kept unsplit in [rest].  [_checknetloc] acts on
    network locations with non-ASCII characters only and is left out. *)

Module urllib.
Import PyStr.

Record ParseResult := {
  scheme : string;
  netloc : string;
  rest : string }.

Definition scheme_chars : string :=
  "abcdefghijklmnopqrstuvwxyzABCDEFGHIJKLMNOPQRSTUVWXYZ0123456789+-.".

(** Code points 0 to 32. *)
Definition _WHATWG_C0_CONTROL_OR_SPACE : string :=
  string_of_list_ascii (List.map ascii_of_nat (seq 0 33)).

Definition _UNSAFE_URL_BYTES_TO_REMOVE : list ascii :=
  ["009"%char; "013"%char; "010"%char].

Definition is_netloc_delim (c : ascii) : bool := contains c "/?#".

(** [_splitnetloc(url, 2)] applied to the text after the two slashes. *)
Definition _splitnetloc (after_slashes : string) : string * string :=
  break_at is_netloc_delim after_slashes.

(** [netloc.isascii()]. *)
Definition isascii (s : string) : bool := all_chars (in_range 0 127) s.

(** The code points of a text. *)
Definition code_points (s : string) : list N :=
  List.map N_of_ascii (list_ascii_of_string s).

(** [unicodedata.normalize('NFKC', c)] for a code point below 256, as code
    point numbers.  Fourteen of them have a normal form other than
    themselves (the decomposition mappings of U+00A0, U+00A8, U+00AA,
    U+00AF, U+00B2, U+00B3, U+00B4, U+00B5, U+00B8, U+00B9, U+00BA, U+00BC,
    U+00BD and U+00BE in the Unicode character database). *)
Definition nfkc_char (c : ascii) : list N :=
  match N_of_ascii c with
  | 160 => [32]
  | 168 => [32; 776]
  | 170 => [97]
  | 175 => [32; 772]
  | 178 => [50]
  | 179 => [51]
  | 180 => [32; 769]
  | 181 => [956]
  | 184 => [32; 807]
  | 185 => [49]
  | 186 => [111]
  | 188 => [49; 8260; 52]
  | 189 => [49; 8260; 50]
  | 190 => [51; 8260; 52]
  | n => [n]
  end%N.

(** [unicodedata.normalize('NFKC', n)]: no two of these normal forms
    combine, so the normal form of a text is the normal forms of its
    characters one after the other. *)
Definition NFKC (n : string) : list N :=
  flat_map nfkc_char (list_ascii_of_string n).

(** [_checknetloc]; [false] stands for [ValueError]. *)
Definition _checknetloc (netloc : string) : bool :=
  if String.eqb netloc "" || isascii netloc then true
  else
    let n := remove "?" (remove "#" (remove ":" (remove "@" netloc))) in
    let netloc2 := NFKC n in
    if bool_decide (code_points n = netloc2) then true
    else negb (existsb (fun c => existsb (N.eqb c) netloc2) (code_points "/?#@:")).

(** [_check_bracketed_host]; [false] stands for [ValueError]. *)
Definition _check_bracketed_host (hostname : string) : bool :=
  match hostname with
  | String "v" tl =>
      (* re.match(r"\Av[a-fA-F0-9]+\..+\Z", hostname) *)
      let '(hex, after) := break_at (fun c => negb (is_hexdigit c)) tl in
      match after with
      | String "." any =>
          negb (String.eqb hex "") && negb (String.eqb any "")
          && negb (contains "010" any)
      | _ => false
      end
  | _ =>
      match ipaddress.ip_address hostname with
      | Some (ipaddress.IPv6Address _ _) => true
      | _ => false
      end
  end.

(** [_check_bracketed_netloc]; [false] stands for [ValueError]. *)
Definition _check_bracketed_netloc (netloc : string) : bool :=
  let '(_, _, hostname_and_port) := rpartition "@" netloc in
  let '(before_bracket, have_open_br, bracketed) := partition "[" hostname_and_port in
  if have_open_br then
    if negb (String.eqb before_bracket "") then false
    else
      let '(hostname, _, port) := partition "]" bracketed in
      if negb (String.eqb port "") && negb (startswith ":" port) then false
      else _check_bracketed_host hostname
  else
    let '(hostname, _, _) := partition ":" hostname_and_port in
    _check_bracketed_host hostname.

(** The scheme prefix: [url.find(':')] and the [for ... else] over
    [url[:i]]. *)
Definition split_scheme (url : string) : string * string :=
  let '(before, found, after) := partition ":" url in
  match before with
  | String c0 _ =>
      if found && in_range 0 127 c0 && is_alpha c0
         && all_chars (fun c => contains c scheme_chars) before
      then (lower before, after)
      else (EmptyString, url)
  | EmptyString => (EmptyString, url)
  end.

(** [urlparse(url)]; [None] stands for [ValueError]. *)
Definition urlparse (url : string) : option ParseResult :=
  let url := lstrip _WHATWG_C0_CONTROL_OR_SPACE url in
  let url := fold_left (fun u b => remove b u) _UNSAFE_URL_BYTES_TO_REMOVE url in
  let '(scheme, url) := split_scheme url in
  match url with
  | String "/" (String "/" after_slashes) =>
      let '(netloc, url) := _splitnetloc after_slashes in
      let open := contains "[" netloc in
      let close := contains "]" netloc in
      if (open && negb close) || (close && negb open) then None
      else if open && close && negb (_check_bracketed_netloc netloc) then None
      else if negb (_checknetloc netloc) then None
      else Some {| scheme := scheme; netloc := netloc; rest := url |}
  | _ =>
      if negb (_checknetloc EmptyString) then None
      else Some {| scheme := scheme; netloc := EmptyString; rest := url |}
  end.

(** [_NetlocResultMixinStr._hostinfo]. *)
Definition _hostinfo (p : ParseResult) : string * option string :=
  let '(_, _, hostinfo) := rpartition "@" (netloc p) in
  let '(_, have_open_br, bracketed) := partition "[" hostinfo in
  let '(hostname, port) :=
    if have_open_br then
      let '(hostname, _, port) := partition "]" bracketed in
      let '(_, _, port) := partition ":" port in
      (hostname, port)
    else
      let '(hostname, _, port) := partition ":" hostinfo in
      (hostname, port) in
  (hostname, if String.eqb port "" then None else Some port).

(** The [hostname] property. *)
Definition hostname (p : ParseResult) : option string :=
  let hostname := fst (_hostinfo p) in
  if String.eqb hostname "" then None
  else
    let '(hostname, percent, zone) := partition "%" hostname in
    Some (lower hostname +:+ (if percent then "%" else "") +:+ zone).

End urllib.

(** ** [main.py]: callback URL validation in [async_endpoint] *)

Module Main.
Import PyStr.

(** [HTTPException(status_code, detail)]; of the detail only the [code]
    entry is kept, or the [error] entry when there is no code. *)
Record HTTPException := {
  status_code : Z;
  code : string }.

Definition blocked_hosts : list string :=
  ["localhost"; "127.0.0.1"; "0.0.0.0"; "::1"; "metadata.google.internal"].

Definition metadata_domains : list string :=
  ["metadata.google.internal"; "169.254.169.254"; "metadata.azure.com"].

(** The checks made on [callback_url_str] before the record is created:
    [None] when the handler goes on, [Some e] when it raises [e]. *)
Definition validate_callback_url (environment callback_url_str : string)
  : option HTTPException :=
  if negb (startswith "http://" callback_url_str
           || startswith "https://" callback_url_str)
  then Some {| status_code := 400; code := "INVALID_CALLBACK_URL" |}
  else
    match urllib.urlparse callback_url_str with
    | None => Some {| status_code := 400; code := "MALFORMED_URL" |}
    | Some parsed =>
        if negb (mem (urllib.scheme parsed) ["http"; "https"])
        then Some {| status_code := 400; code := "INVALID_SCHEME" |}
        else
          match urllib.hostname parsed with
          | None => None
          | Some hostname =>
              if mem (lower hostname) blocked_hosts
                 && String.eqb environment "production"
              then Some {| status_code := 400; code := "BLOCKED_HOST" |}
              else
                let private_ip :=
                  match ipaddress.ip_address hostname with
                  | Some ip =>
                      (ipaddress.is_private ip || ipaddress.is_loopback ip)
                      && String.eqb environment "production"
                  | None => false
                  end in
                if private_ip
                then Some {| status_code := 400; code := "PRIVATE_IP_BLOCKED" |}
                else if mem (lower hostname) metadata_domains
                then Some {| status_code := 400; code := "METADATA_BLOCKED" |}
                else None
          end
    end.

(** *** [RateLimiter]

    [requests] is a [defaultdict(deque)]: reading a missing client yields an
    empty deque and stores it. *)

Record RateLimiter := {
  max_requests : Z;
  window_seconds : Z;
  requests : gmap string (list Q) }.

Definition RateLimiter_init (max_requests window_seconds : Z) : RateLimiter :=
  {| max_requests := max_requests; window_seconds := window_seconds;
     requests := ∅ |}.

Definition with_requests (rs : gmap string (list Q)) (self : RateLimiter) : RateLimiter :=
  {| max_requests := max_requests self; window_seconds := window_seconds self;
     requests := rs |}.

(** [while client_requests and client_requests[0] <= cutoff: popleft()]. *)
Fixpoint drop_old (cutoff : Q) (client_requests : list Q) : list Q :=
  match client_requests with
  | t :: older_gone => if Qle_bool t cutoff then drop_old cutoff older_gone
                       else client_requests
  | [] => []
  end.

(** [is_allowed]; [now] is the value of [time.time()]. *)
Definition is_allowed (self : RateLimiter) (client_ip : string) (now : Q)
  : bool * RateLimiter :=
  let client_requests := default [] (requests self !! client_ip) in
  let client_requests :=
    drop_old (now - inject_Z (window_seconds self))%Q client_requests in
  if max_requests self <=? Z.of_nat (List.length client_requests) then
    (false, with_requests (<[client_ip := client_requests]> (requests self)) self)
  else
    (true,
     with_requests (<[client_ip := (client_requests ++ [now])%list]> (requests self)) self).

(** The module-level limiter chosen from the environment. *)
Definition rate_limiter (environment : string) : RateLimiter :=
  if String.eqb environment "production" then RateLimiter_init 50 60
  else RateLimiter_init 1000 60.

(** [check_rate_limit]; [client] is [request.client.host] when the request
    has a client.  [None] when the dependency returns, [Some e] when it
    raises [e]. *)
Definition check_rate_limit (environment : string) (limiter : RateLimiter)
    (client : option string) (now : Q) : option HTTPException * RateLimiter :=
  if negb (String.eqb environment "production") then (None, limiter)
  else
    let client_ip := default "unknown" client in
    let '(allowed, limiter) := is_allowed limiter client_ip now in
    if allowed then (None, limiter)
    else (Some {| status_code := 429; code := "Rate limit exceeded" |}, limiter).

(** The two rate-limited routes. *)
Inductive endpoint := sync_endpoint | async_endpoint.

Record request := {
  route : endpoint;
  client : option string;
  arrival : Q }.

(** Both handlers declare [_: None = Depends(check_rate_limit)], so the
    check runs before either handler body: [None] when the body is reached,
    [Some e] when the request is answered with [e] instead. *)
Definition gate (environment : string) (limiter : RateLimiter) (req : request)
  : option HTTPException * RateLimiter :=
  match route req with
  | sync_endpoint =>
      check_rate_limit environment limiter (client req) (arrival req)
  | async_endpoint =>
      check_rate_limit environment limiter (client req) (arrival req)
  end.

(** Requests admitted one after the other, with the answer given to each. *)
Fixpoint gate_all (environment : string) (limiter : RateLimiter)
    (reqs : list request)
  : list (request * option HTTPException) * RateLimiter :=
  match reqs with
  | [] => ([], limiter)
  | req :: reqs' =>
      let '(answer, limiter) := gate environment limiter req in
      let '(log, limiter) := gate_all environment limiter reqs' in
      ((req, answer) :: log, limiter)
  end.

(** *** Vocabulary for the statements about rate limiting *)

Definition client_ip (req : request) : string := default "unknown" (client req).

Definition from (who : string) (req : request) : bool :=
  String.eqb (client_ip req) who.

(** The answers given to the requests of one client, in order. *)
Definition answers_to (who : string) (log : list (request * option HTTPException))
  : list (option HTTPException) :=
  List.map snd (List.filter (fun entry => from who (fst entry)) log).

Definition too_many_requests : HTTPException :=
  {| status_code := 429; code := "Rate limit exceeded" |}.

(** The deque held for a client, empty when the client is not tracked. *)
Definition deque (limiter : RateLimiter) (who : string) : list Q :=
  default [] (requests limiter !! who).

(** [is_allowed] seen on the deque of the calling client alone. *)
Definition allow_deque (max_requests window_seconds : Z)
    (client_requests : list Q) (now : Q) : bool * list Q :=
  let client_requests :=
    drop_old (now - inject_Z window_seconds)%Q client_requests in
  if max_requests <=? Z.of_nat (List.length client_requests) then
    (false, client_requests)
  else (true, client_requests ++ [now]).

(** The requests of one client, given by their arrival times. *)
Fixpoint run_deque (max_requests window_seconds : Z)
    (client_requests : list Q) (arrivals : list Q) : list bool * list Q :=
  match arrivals with
  | [] => ([], client_requests)
  | now :: arrivals' =>
      let '(allowed, client_requests) :=
        allow_deque max_requests window_seconds client_requests now in
      let '(verdicts, client_requests) :=
        run_deque max_requests window_seconds client_requests arrivals' in
      (allowed :: verdicts, client_requests)
  end.

(** The answer that corresponds to a verdict of [is_allowed]. *)
Definition answer_of (allowed : bool) : option HTTPException :=
  if allowed then None else Some too_many_requests.

(** *** [RateLimiter.get_stats]

    The loop prunes every stored deque in place, then counts the clients
    whose deque is not empty and the timestamps they hold. *)

Record limiter_stats := {
  active_ips : nat;
  total_recent_requests : nat;
  max_requests_per_window : Z;
  reported_window_seconds : Z }.

Definition get_stats (self : RateLimiter) (now : Q) : limiter_stats * RateLimiter :=
  let cleaned :=
    drop_old (now - inject_Z (window_seconds self))%Q <$> requests self in
  let active :=
    List.filter (fun entry => negb (Nat.eqb (List.length (snd entry)) 0))
                (map_to_list cleaned) in
  ({| active_ips := List.length active;
      total_recent_requests :=
        fold_right (fun entry total => (List.length (snd entry) + total)%nat) 0%nat
                   active;
      max_requests_per_window := max_requests self;
      reported_window_seconds := window_seconds self |},
   with_requests cleaned self).

(** *** The sliding window, told from the history of a client

    The verdicts a limiter gives that keeps every allowed arrival for ever
    and counts, at each arrival, the allowed ones that are less than a
    window old. *)
Fixpoint window_verdicts (max_requests window_seconds : Z)
    (allowed_so_far : list Q) (arrivals : list Q) : list bool :=
  match arrivals with
  | [] => []
  | now :: arrivals' =>
      let recent :=
        List.filter (fun t => negb (Qle_bool t (now - inject_Z window_seconds)))
                    allowed_so_far in
      let allowed := negb (max_requests <=? Z.of_nat (List.length recent)) in
      allowed ::
      window_verdicts max_requests window_seconds
        (if allowed then allowed_so_far ++ [now] else allowed_so_far) arrivals'
  end.

End Main.

(** ** [services.py] *)

Module Services.
Import PyStr.

Definition Qlt_bool (a b : Q) : bool := negb (Qle_bool b a).

(** *** Request records *)

Inductive RequestMode := SYNC | ASYNC.

Inductive RequestStatus :=
| PENDING | PROCESSING | COMPLETED | FAILED | CALLBACK_SENT | CALLBACK_FAILED.

Definition RequestStatus_eqb (a b : RequestStatus) : bool :=
  match a, b with
  | PENDING, PENDING | PROCESSING, PROCESSING | COMPLETED, COMPLETED
  | FAILED, FAILED | CALLBACK_SENT, CALLBACK_SENT
  | CALLBACK_FAILED, CALLBACK_FAILED => true
  | _, _ => false
  end.

(** A [Dict[str, Any]] payload; the JSON text columns of the table are
    modelled by the dictionaries they encode. *)
Definition PyDict := list (string * string).

(** A row of the [requests] table; timestamps are seconds. *)
Record RequestRecord := {
  request_id : string;
  mode : RequestMode;
  status : RequestStatus;
  input_data : PyDict;
  result : option PyDict;
  processing_time_ms : option Q;
  callback_url : option string;
  callback_attempts : Z;
  created_at : Q;
  completed_at : option Q;
  error_message : option string }.

Definition set_status (v : RequestStatus) (r : RequestRecord) : RequestRecord :=
  {| request_id := request_id r; mode := mode r; status := v;
     input_data := input_data r; result := result r;
     processing_time_ms := processing_time_ms r;
     callback_url := callback_url r; callback_attempts := callback_attempts r;
     created_at := created_at r; completed_at := completed_at r;
     error_message := error_message r |}.

Definition set_result (v : option PyDict) (r : RequestRecord) : RequestRecord :=
  {| request_id := request_id r; mode := mode r; status := status r;
     input_data := input_data r; result := v;
     processing_time_ms := processing_time_ms r;
     callback_url := callback_url r; callback_attempts := callback_attempts r;
     created_at := created_at r; completed_at := completed_at r;
     error_message := error_message r |}.

Definition set_processing_time_ms (v : option Q) (r : RequestRecord) : RequestRecord :=
  {| request_id := request_id r; mode := mode r; status := status r;
     input_data := input_data r; result := result r;
     processing_time_ms := v;
     callback_url := callback_url r; callback_attempts := callback_attempts r;
     created_at := created_at r; completed_at := completed_at r;
     error_message := error_message r |}.

Definition set_callback_attempts (v : Z) (r : RequestRecord) : RequestRecord :=
  {| request_id := request_id r; mode := mode r; status := status r;
     input_data := input_data r; result := result r;
     processing_time_ms := processing_time_ms r;
     callback_url := callback_url r; callback_attempts := v;
     created_at := created_at r; completed_at := completed_at r;
     error_message := error_message r |}.

Definition set_completed_at (v : option Q) (r : RequestRecord) : RequestRecord :=
  {| request_id := request_id r; mode := mode r; status := status r;
     input_data := input_data r; result := result r;
     processing_time_ms := processing_time_ms r;
     callback_url := callback_url r; callback_attempts := callback_attempts r;
     created_at := created_at r; completed_at := v;
     error_message := error_message r |}.

Definition set_error_message (v : option string) (r : RequestRecord) : RequestRecord :=
  {| request_id := request_id r; mode := mode r; status := status r;
     input_data := input_data r; result := result r;
     processing_time_ms := processing_time_ms r;
     callback_url := callback_url r; callback_attempts := callback_attempts r;
     created_at := created_at r; completed_at := completed_at r;
     error_message := v |}.

(** Python truth value of the optional arguments. *)
Definition truthy_dict (d : option PyDict) : bool :=
  match d with Some (_ :: _) => true | _ => false end.

Definition truthy_float (x : option Q) : bool :=
  match x with Some q => negb (Qeq_bool q 0) | None => false end.

Definition truthy_str (s : option string) : bool :=
  match s with Some s => negb (String.eqb s "") | None => false end.

(** What a call hands back to its caller. *)
Inductive pyvalue :=
| PyNone
| PyBool (b : bool)
| PyStr (s : string).

(** *** [RequestService.update_request_status]

    The table is a map from the primary key to the row; [now] is the value
    of [datetime.utcnow()].  The function has no [return] statement, so
    both branches hand back [None]. *)
Definition update_request_status
    (db : gmap string RequestRecord) (request_id : string)
    (status : RequestStatus) (result : option PyDict)
    (processing_time_ms : option Q) (error_message : option string)
    (now : Q) : pyvalue * gmap string RequestRecord :=
  match db !! request_id with
  | Some record =>
      let record := set_status status record in
      let record := if truthy_dict result then set_result result record else record in
      let record :=
        if truthy_float processing_time_ms
        then set_processing_time_ms processing_time_ms record else record in
      let record :=
        if existsb (RequestStatus_eqb status) [COMPLETED; FAILED; CALLBACK_SENT]
        then set_completed_at (Some now) record else record in
      let record :=
        if truthy_str error_message
        then set_error_message error_message record else record in
      (PyNone, <[request_id := record]> db)
  | None => (PyNone, db)
  end.

(** *** [CallbackService] *)

Record CallbackService := {
  max_retries : nat;
  retry_delay : Q;
  circuit_breaker_threshold : Z;
  circuit_breaker_reset_timeout : Q;
  failed_callbacks : gmap string Z;
  circuit_breaker_state : gmap string Q }.

(** [CallbackService.__init__]. *)
Definition CallbackService_init : CallbackService :=
  {| max_retries := 3;
     retry_delay := 1;
     circuit_breaker_threshold := 5;
     circuit_breaker_reset_timeout := 60;
     failed_callbacks := ∅;
     circuit_breaker_state := ∅ |}.

Definition with_circuit (fc : gmap string Z) (st : gmap string Q)
    (self : CallbackService) : CallbackService :=
  {| max_retries := max_retries self;
     retry_delay := retry_delay self;
     circuit_breaker_threshold := circuit_breaker_threshold self;
     circuit_breaker_reset_timeout := circuit_breaker_reset_timeout self;
     failed_callbacks := fc;
     circuit_breaker_state := st |}.

(** [_get_domain]; [None] when [urlparse] raises [ValueError]. *)
Definition _get_domain (url : string) : option string :=
  match urllib.urlparse url with
  | Some parsed => Some (urllib.netloc parsed)
  | None => None
  end.

(** [_is_circuit_open]; [now] is the value of [time.time()]. *)
Definition _is_circuit_open (self : CallbackService) (domain : string) (now : Q)
  : bool * CallbackService :=
  match circuit_breaker_state self !! domain with
  | None => (false, self)
  | Some last_failure =>
      let failure_count := default 0 (failed_callbacks self !! domain) in
      if failure_count <? circuit_breaker_threshold self then (false, self)
      else if Qlt_bool (circuit_breaker_reset_timeout self) (now - last_failure)
      then (false,
            with_circuit (<[domain := 0]> (failed_callbacks self))
                         (delete domain (circuit_breaker_state self)) self)
      else (true, self)
  end.

Definition _record_callback_failure (self : CallbackService) (domain : string)
    (now : Q) : CallbackService :=
  with_circuit
    (<[domain := default 0 (failed_callbacks self !! domain) + 1]> (failed_callbacks self))
    (<[domain := now]> (circuit_breaker_state self)) self.

Definition _record_callback_success (self : CallbackService) (domain : string)
  : CallbackService :=
  with_circuit (delete domain (failed_callbacks self))
               (delete domain (circuit_breaker_state self)) self.

(** What one POST can end in: a response with its status, or one of the
    three exception classes the loop catches. *)
Inductive attempt_result :=
| HttpResponse (status : Z)
| RaisesTimeoutError
| RaisesClientError
| RaisesException.

(** The outside world during one delivery: the result and duration of the
    POST made on each attempt, and the jitter drawn after it. *)
Record delivery_env := {
  post : nat -> attempt_result;
  post_duration : nat -> Q;
  jitter : nat -> Q }.

Inductive event :=
| Post (url : string) (attempt : nat)
| Sleep (delay : Q).

(** The service together with the clock and the network activity so far. *)
Record run := {
  svc : CallbackService;
  clock : Q;
  trace : list event }.

Definition is_success (r : attempt_result) : bool :=
  match r with
  | HttpResponse status => status =? 200
  | _ => false
  end.

Definition backoff (self : CallbackService) (env : delivery_env) (attempt : nat) : Q :=
  (retry_delay self * inject_Z (2 ^ Z.of_nat attempt) + jitter env attempt)%Q.

(** The body of [for attempt in range(self.max_retries)], for the [todo]
    attempts that remain.  [true] when the loop returned [True], [false]
    when the range ran out. *)
Fixpoint attempt_loop (env : delivery_env) (callback_url domain : string)
    (todo attempt : nat) (r : run) : bool * run :=
  match todo with
  | O => (false, r)
  | S todo' =>
      let r := {| svc := svc r;
                  clock := (clock r + post_duration env attempt)%Q;
                  trace := trace r ++ [Post callback_url attempt] |} in
      if is_success (post env attempt) then
        (true, {| svc := _record_callback_success (svc r) domain;
                  clock := clock r; trace := trace r |})
      else
        let r :=
          if Z.of_nat attempt <? Z.of_nat (max_retries (svc r)) - 1 then
            let delay := backoff (svc r) env attempt in
            {| svc := svc r; clock := (clock r + delay)%Q;
               trace := trace r ++ [Sleep delay] |}
          else r in
        attempt_loop env callback_url domain todo' (S attempt) r
  end.

(** [send_callback]; the outer [None] is the [ValueError] of [_get_domain]
    leaving the function. *)
Definition send_callback (self : CallbackService) (env : delivery_env)
    (callback_url : string) (now : Q) : option (bool * run) :=
  match _get_domain callback_url with
  | None => None
  | Some domain =>
      let '(is_open, self) := _is_circuit_open self domain now in
      let r := {| svc := self; clock := now; trace := [] |} in
      if is_open then Some (false, r)
      else
        let '(delivered, r) :=
          attempt_loop env callback_url domain (max_retries self) 0 r in
        if delivered then Some (true, r)
        else Some (false,
                   {| svc := _record_callback_failure (svc r) domain (clock r);
                      clock := clock r; trace := trace r |})
  end.

(** [process_async_callback], the background task of an async request.
    [work] is what [WorkProcessor.process_work_async] hands back (the result
    and the processing time), or the text of the exception it raises; [now]
    is the time at which the work ends, [exn_text] the text of a
    [ValueError] leaving [send_callback].  An absent [callback_url] is read
    as the empty URL. *)
Definition process_async_callback (self : CallbackService) (env : delivery_env)
    (db : gmap string RequestRecord) (request_id : string)
    (work : PyDict * Q + string) (exn_text : string) (now : Q)
  : CallbackService * gmap string RequestRecord :=
  match db !! request_id with
  | None => (self, db)
  | Some record =>
      let record := set_status PROCESSING record in
      let on_exception (text : string) (record : RequestRecord) :=
        set_completed_at (Some now)
          (set_error_message (Some text) (set_status FAILED record)) in
      match work with
      | inr text => (self, <[request_id := on_exception text record]> db)
      | inl (work_result, ms) =>
          let record := set_status COMPLETED record in
          let record := set_result (Some work_result) record in
          let record := set_processing_time_ms (Some ms) record in
          let record := set_completed_at (Some now) record in
          match send_callback self env (default "" (callback_url record)) now with
          | None => (self, <[request_id := on_exception exn_text record]> db)
          | Some (callback_success, r) =>
              let record :=
                if callback_success then
                  set_callback_attempts (Z.of_nat (max_retries self))
                    (set_status CALLBACK_SENT record)
                else
                  set_error_message
                    (Some ("Callback failed after " +:+ pretty (max_retries self)
                           +:+ " attempts"))
                    (set_status CALLBACK_FAILED record) in
              (svc r, <[request_id := record]> db)
          end
      end
  end.

(** *** [get_circuit_breaker_stats] *)

Record domain_stats := {
  state : string;
  failure_count : Z;
  last_failure_time : Q;
  circuit_open : bool }.

Record global_stats := {
  total_domains_tracked : nat;
  open_circuits : nat;
  circuit_threshold : Z;
  reset_timeout : Q }.

(** [set(list(self.failed_callbacks.keys()) + list(self.circuit_breaker_state.keys()))]. *)
Definition tracked_domains (self : CallbackService) : list string :=
  elements (dom (failed_callbacks self) ∪ dom (circuit_breaker_state self)).

(** One iteration of the loop over the tracked domains.  [now_at domain] is
    the value of [time.time()] when [domain] is examined. *)
Definition stats_step (now_at : string -> Q)
    (acc : gmap string domain_stats * CallbackService) (domain : string)
  : gmap string domain_stats * CallbackService :=
  let '(stats, self) := acc in
  let failure_count := default 0 (failed_callbacks self !! domain) in
  let last_failure := default 0%Q (circuit_breaker_state self !! domain) in
  let '(is_open, self) := _is_circuit_open self domain (now_at domain) in
  (<[domain := {| state := if is_open then "open" else "closed";
                  failure_count := failure_count;
                  last_failure_time := last_failure;
                  circuit_open := is_open |}]> stats,
   self).

Definition get_circuit_breaker_stats (self : CallbackService) (now_at : string -> Q)
  : (gmap string domain_stats * global_stats) * CallbackService :=
  let '(stats, self') :=
    fold_left (stats_step now_at) (tracked_domains self) (∅, self) in
  ((stats,
    {| total_domains_tracked := size stats;
       open_circuits :=
         List.length (List.filter (fun d => String.eqb (state (snd d)) "open")
                                  (map_to_list stats));
       circuit_threshold := circuit_breaker_threshold self';
       reset_timeout := circuit_breaker_reset_timeout self' |}),
   self').

(** *** Vocabulary for the statements about [send_callback] *)

(** The network activity of one attempt that does not succeed: the POST,
    and the back-off sleep unless it was the last attempt. *)
Definition failed_attempt_events (self : CallbackService) (env : delivery_env)
    (callback_url : string) (attempt : nat) : list event :=
  Post callback_url attempt ::
  (if Z.of_nat attempt <? Z.of_nat (max_retries self) - 1
   then [Sleep (backoff self env attempt)] else []).

Definition is_post (e : event) : bool :=
  match e with Post _ _ => true | Sleep _ => false end.

(** The POSTs of a trace, in order. *)
Definition posts (tr : list event) : list event := List.filter is_post tr.

(** A character that may occur in the network locations covered by the
    statement about [_get_domain]: an ASCII character that is neither a
    delimiter nor a bracket. *)
Definition netloc_char (c : ascii) : bool :=
  in_range 0 127 c
  && negb (urllib.is_netloc_delim c)
  && negb (contains c "[]").

(** A text without its tab, carriage-return and line-feed characters,
    which [urlparse] drops from a URL before it splits it. *)
Definition without_unsafe (s : string) : string :=
  fold_left (fun u b => remove b u) urllib._UNSAFE_URL_BYTES_TO_REMOVE s.

(** Empty, or starting with one of the delimiters that end the network
    location. *)
Definition starts_rest (rest : string) : bool :=
  match rest with
  | EmptyString => true
  | String c _ => urllib.is_netloc_delim c
  end.

(** *** Vocabulary for the statements about [get_circuit_breaker_stats] *)

(** The circuit check of [domain] at time [now] takes its reset branch: a
    last failure is recorded, the failure count has reached the threshold,
    and the reset timeout has elapsed since that failure. *)
Definition reset_due (self : CallbackService) (domain : string) (now : Q) : bool :=
  match circuit_breaker_state self !! domain with
  | Some last_failure =>
      (circuit_breaker_threshold self <=? default 0 (failed_callbacks self !! domain))
      && Qlt_bool (circuit_breaker_reset_timeout self) (now - last_failure)
  | None => false
  end.

(** The entry reported for [domain], read off the service as it is before
    the snapshot. *)
Definition reported (self : CallbackService) (domain : string) (now : Q) : domain_stats :=
  let is_open := fst (_is_circuit_open self domain now) in
  {| state := if is_open then "open" else "closed";
     failure_count := default 0 (failed_callbacks self !! domain);
     last_failure_time := default 0%Q (circuit_breaker_state self !! domain);
     circuit_open := is_open |}.

(** A destination that answers every POST with status 500, for the
    examples. *)
Definition everything_fails : delivery_env :=
  {| post := fun _ => HttpResponse 500;
     post_duration := fun _ => 0%Q;
     jitter := fun _ => (1 # 10)%Q |}.

(** A freshly created synchronous request, for the examples. *)
Definition pending_record : RequestRecord :=
  {| request_id := "r1"; mode := SYNC; status := PENDING;
     input_data := [("numbers", "[1, 2, 3]")]; result := None;
     processing_time_ms := None; callback_url := None; callback_attempts := 0;
     created_at := 0; completed_at := None; error_message := None |}.

(** *** [RequestService]: creating and reading records *)

(** [create_request_record]; [new_id] is the value of [uuid.uuid4()] and
    [now] the time at which the row is inserted.  [None] stands for the
    integrity error raised when the primary key is already taken. *)
Definition create_request_record (db : gmap string RequestRecord)
    (mode : RequestMode) (input_data : PyDict) (callback_url : option string)
    (new_id : string) (now : Q) : option (string * gmap string RequestRecord) :=
  match db !! new_id with
  | Some _ => None
  | None =>
      Some (new_id,
            <[new_id := {| request_id := new_id; mode := mode; status := PENDING;
                           input_data := input_data; result := None;
                           processing_time_ms := None;
                           callback_url := callback_url; callback_attempts := 0;
                           created_at := now; completed_at := None;
                           error_message := None |}]> db)
  end.

(** [RequestDetails] carries the same eleven fields as the row. *)
Definition RequestDetails : Type := RequestRecord.

(** [get_request_details]; [None] when there is no such row. *)
Definition get_request_details (db : gmap string RequestRecord) (id : string)
  : option RequestDetails :=
  match db !! id with
  | None => None
  | Some record =>
      Some {| request_id := request_id record;
              mode := mode record;
              status := status record;
              input_data := input_data record;
              result := match result record with
                        | Some text => Some text
                        | None => None
                        end;
              processing_time_ms := processing_time_ms record;
              callback_url := callback_url record;
              callback_attempts := callback_attempts record;
              created_at := created_at record;
              completed_at := completed_at record;
              error_message := error_message record |}
  end.

(** What [process_sync_request] ends in: the dictionary it returns, or the
    exception of the work, raised again. *)
Inductive sync_outcome :=
| SyncReturns (id : string) (work_result : PyDict) (ms : Q) (timestamp : Q)
| SyncRaises (text : string).

(** [process_sync_request].  [work] is what [process_work] hands back, or
    the text of the exception it raises; [t_created], [t_done] and
    [t_return] are the clock readings at insertion, at the last status
    update and at the return.  The outer [None] is an exception of
    [create_request_record], which is raised outside the [try]. *)
Definition process_sync_request (db : gmap string RequestRecord)
    (input_data : PyDict) (new_id : string) (work : PyDict * Q + string)
    (t_created t_done t_return : Q)
  : option (sync_outcome * gmap string RequestRecord) :=
  match create_request_record db SYNC input_data None new_id t_created with
  | None => None
  | Some (id, db) =>
      let db := snd (update_request_status db id PROCESSING None None None t_created) in
      match work with
      | inl (work_result, ms) =>
          let db :=
            snd (update_request_status db id COMPLETED (Some work_result) (Some ms)
                   None t_done) in
          Some (SyncReturns id work_result ms t_return, db)
      | inr text =>
          let db :=
            snd (update_request_status db id FAILED None None (Some text) t_done) in
          Some (SyncRaises text, db)
      end
  end.

(** *** Vocabulary for the statements about repeated deliveries *)

(** Deliveries to one URL made one after the other, each with its own
    outside world and starting time. *)
Fixpoint deliver_all (self : CallbackService) (callback_url : string)
    (calls : list (delivery_env * Q)) : option (list bool * CallbackService) :=
  match calls with
  | [] => Some ([], self)
  | (env, now) :: calls' =>
      match send_callback self env callback_url now with
      | None => None
      | Some (delivered, r) =>
          match deliver_all (svc r) callback_url calls' with
          | None => None
          | Some (verdicts, self') => Some (delivered :: verdicts, self')
          end
      end
  end.

(** Every recorded failure count is at least 0, and a destination with a
    last-failure stamp has a failure count of at least 1. *)
Definition consistent (self : CallbackService) : Prop :=
  forall domain,
    (forall count, failed_callbacks self !! domain = Some count -> 0 <= count)
    /\ (is_Some (circuit_breaker_state self !! domain) ->
        exists count, failed_callbacks self !! domain = Some count /\ 1 <= count).

Definition is_sleep (e : event) : bool :=
  match e with Sleep _ => true | Post _ _ => false end.

(** [m] POSTs to one URL, numbered from [first], with a sleep of [delay k]
    between POST [k] and the next one, and none after the last. *)
Fixpoint spaced_posts (callback_url : string) (delay : nat -> Q)
    (first m : nat) : list event :=
  match m with
  | O => []
  | S m' =>
      Post callback_url first ::
      match m' with
      | O => []
      | S _ => Sleep (delay first) :: spaced_posts callback_url delay (S first) m'
      end
  end.

End Services.

(** ** [work_processor.py]: input validation *)

Module WorkProcessor.
Import PyStr.

(** A JSON-like Python value: a scalar (given by its text), a list or a
    dictionary. *)
#[warnings="-register-all"]
Inductive pyobj :=
| PyScalar (text : string)
| PyList (items : list pyobj)
| PyDictObj (entries : list (string * pyobj)).

(** The local function [check_depth] of [validate_input]. *)
Fixpoint check_depth (max_depth : nat) (obj : pyobj) (current_depth : nat) : bool :=
  if (max_depth <? current_depth)%nat then false
  else
    match obj with
    | PyDictObj entries =>
        forallb (fun entry => let '(_, v) := entry in
                              check_depth max_depth v (S current_depth)) entries
    | PyList items =>
        forallb (fun item => check_depth max_depth item (S current_depth)) items
    | PyScalar _ => true
    end.

(** [pattern in text]. *)
Fixpoint is_infix (pattern text : string) : bool :=
  startswith pattern text
  || match text with
     | String _ text' => is_infix pattern text'
     | EmptyString => false
     end.

Definition suspicious_patterns : list string :=
  ["<script"; "javascript:"; "eval("; "exec("].

(** [validate_input]; [json_dumps] is the serialiser, [None] where it
    raises [TypeError] or [ValueError]. *)
Definition validate_input (json_dumps : pyobj -> option string) (data : pyobj) : bool :=
  match data with
  | PyDictObj entries =>
      if Nat.eqb (List.length entries) 0 then false
      else
        match json_dumps data with
        | None => false
        | Some data_str =>
            if 10000 <? Z.of_nat (String.length data_str) then false
            else if negb (check_depth 10 data 0) then false
            else
              let data_str_lower := lower data_str in
              if existsb (fun pattern => is_infix pattern data_str_lower)
                         suspicious_patterns
              then false else true
        end
  | _ => false
  end.

(** How many levels of values lie below a value: none below a scalar or an
    empty container. *)
Fixpoint levels (obj : pyobj) : nat :=
  match obj with
  | PyScalar _ => 0
  | PyList [] => 0
  | PyList items => S (fold_right (fun item m => Nat.max (levels item) m) 0%nat items)
  | PyDictObj [] => 0
  | PyDictObj entries =>
      S (fold_right (fun entry m => let '(_, v) := entry in Nat.max (levels v) m)
                    0%nat entries)
  end.

(** [text] holds [pattern] written in some mixture of upper and lower
    case. *)
Definition occurs_any_case (pattern text : string) : Prop :=
  exists pre hit post, text = pre +:+ hit +:+ post /\ lower hit = pattern.

End WorkProcessor.

(** ** [models.py]: the request model of [POST /async] *)

Module Models.
Import PyStr.

(** A URL as the URL type of pydantic holds it after parsing: its scheme
    and the text [str()] gives.  The type is not part of this repository;
    what its parser makes of a text is taken as given. *)
Record Url := {
  url_scheme : string;
  url_str : string }.

(** The field [callback_url: HttpUrl] of [AsyncWorkRequest].  [parsed] is
    what the URL parser makes of the text sent, [None] where it refuses the
    text.  The field admits the schemes http and https only; [None] stands
    for the validation error of the field. *)
Definition HttpUrl (parsed : option Url) : option Url :=
  match parsed with
  | Some url =>
      if mem (url_scheme url) ["http"; "https"] then Some url else None
  | None => None
  end.

End Models.

(** ** [main.py]: the handlers that use the services *)

Module Api.
Import PyStr.

(** [GET /requests/{request_id}]: the status answered and the details. *)
Definition get_request_details (db : gmap string Services.RequestRecord)
    (request_id : string) : Z * option Services.RequestDetails :=
  match Services.get_request_details db request_id with
  | None => (404, None)
  | Some request_details => (200, Some request_details)
  end.

(** What [POST /async] answers: the acknowledgement, an [HTTPException]
    raised by the rate-limit check or by the handler, or the 422 with which
    FastAPI answers a body that the request model refuses. *)
Inductive async_answer :=
| Accepted (request_id : string)
| Refused (e : Main.HTTPException)
| Unprocessable.

(** An exception of the database layer inside the [try] block of the
    handler, other than the one for a primary key that is taken: raised
    before the row is committed or after it, a [ValueError] or not. *)
Inductive storage_fault :=
| RaisedBeforeCommit (value_error : bool)
| RaisedAfterCommit (value_error : bool).

(** The two [except] clauses of the [try] block. *)
Definition acceptance_error (value_error : bool) : Main.HTTPException :=
  if value_error
  then {| Main.status_code := 400; Main.code := "VALIDATION_ERROR" |}
  else {| Main.status_code := 500; Main.code := "ACCEPTANCE_ERROR" |}.

(** [POST /async].  [now] is the clock reading of the rate-limit check,
    which runs first, as a dependency; [callback_url] is what the URL
    parser of the request model makes of the callback URL sent (the other
    fields of the body are taken to be well-formed); [data_valid] is the
    verdict of [WorkProcessor.validate_input] on the request data, [new_id]
    the value of [uuid.uuid4()], [t_created] the time at which the row is
    inserted and [fault] the exception of the database layer, if any.  The
    result holds the answer, the limiter and the table afterwards, and the
    id of the background task that was scheduled, if any. *)
Definition async_endpoint (environment : string) (limiter : Main.RateLimiter)
    (db : gmap string Services.RequestRecord) (client : option string) (now : Q)
    (data : Services.PyDict) (data_valid : bool)
    (callback_url : option Models.Url)
    (new_id : string) (t_created : Q) (fault : option storage_fault)
  : async_answer * Main.RateLimiter * gmap string Services.RequestRecord
    * option string :=
  match Main.check_rate_limit environment limiter client now with
  | (Some e, limiter) => (Refused e, limiter, db, None)
  | (None, limiter) =>
      match Models.HttpUrl callback_url with
      | None => (Unprocessable, limiter, db, None)
      | Some callback_url =>
          if negb data_valid then
            (Refused {| Main.status_code := 400; Main.code := "INVALID_INPUT" |},
             limiter, db, None)
          else
            let callback_url_str := Models.url_str callback_url in
            match Main.validate_callback_url environment callback_url_str with
            | Some e => (Refused e, limiter, db, None)
            | None =>
                match fault with
                | Some (RaisedBeforeCommit value_error) =>
                    (Refused (acceptance_error value_error), limiter, db, None)
                | _ =>
                    match Services.create_request_record db Services.ASYNC data
                            (Some callback_url_str) new_id t_created with
                    | None => (Refused (acceptance_error false), limiter, db, None)
                    | Some (request_id, db) =>
                        match fault with
                        | Some (RaisedAfterCommit value_error) =>
                            (Refused (acceptance_error value_error), limiter, db,
                             None)
                        | _ => (Accepted request_id, limiter, db, Some request_id)
                        end
                    end
                end
            end
      end
  end.

(** What [POST /sync] answers: the [WorkResponse], or the exception it
    raises. *)
Inductive sync_answer :=
| Answered (request_id : string) (work_result : Services.PyDict)
           (processing_time_ms timestamp : Q)
| SyncRefused (e : Main.HTTPException).

(** [POST /sync].  [work] is what [process_work] hands back or the text of
    the exception it raises, [value_error] whether that exception is a
    [ValueError]; the other arguments are as for [async_endpoint] and
    [process_sync_request].  The result holds the answer, the limiter and
    the table afterwards. *)
Definition sync_endpoint (environment : string) (limiter : Main.RateLimiter)
    (db : gmap string Services.RequestRecord) (client : option string) (now : Q)
    (data : Services.PyDict) (data_valid : bool) (new_id : string)
    (work : Services.PyDict * Q + string) (value_error : bool)
    (t_created t_done t_return : Q)
  : sync_answer * Main.RateLimiter * gmap string Services.RequestRecord :=
  match Main.check_rate_limit environment limiter client now with
  | (Some e, limiter) => (SyncRefused e, limiter, db)
  | (None, limiter) =>
      if negb data_valid then
        (SyncRefused {| Main.status_code := 400; Main.code := "INVALID_INPUT" |},
         limiter, db)
      else
        match Services.process_sync_request db data new_id work
                t_created t_done t_return with
        | Some (Services.SyncReturns request_id work_result ms timestamp, db) =>
            (Answered request_id work_result ms timestamp, limiter, db)
        | Some (Services.SyncRaises _, db) =>
            (SyncRefused
               (if value_error
                then {| Main.status_code := 400; Main.code := "VALIDATION_ERROR" |}
                else {| Main.status_code := 500; Main.code := "PROCESSING_ERROR" |}),
             limiter, db)
        | None =>
            (SyncRefused {| Main.status_code := 500;
                            Main.code := "PROCESSING_ERROR" |},
             limiter, db)
        end
  end.

End Api.
Module ServicesSpec.
Import PyStr Services.

Lemma Qlt_bool_iff a b : Qlt_bool a b = true <-> (a < b)%Q.
Proof.
  unfold Qlt_bool. rewrite negb_true_iff, <- not_true_iff_false, Qle_bool_iff.
  split; [apply Qnot_le_lt | apply Qlt_not_le].
Qed.

Lemma Qlt_bool_false_iff a b : Qlt_bool a b = false <-> (b <= a)%Q.
Proof.
  unfold Qlt_bool. rewrite negb_false_iff. apply Qle_bool_iff.
Qed.


(** *** The circuit breaker *)

Lemma is_circuit_open_config self domain now :
  let self' := snd (_is_circuit_open self domain now) in
  max_retries self' = max_retries self
  /\ retry_delay self' = retry_delay self
  /\ circuit_breaker_threshold self' = circuit_breaker_threshold self
  /\ circuit_breaker_reset_timeout self' = circuit_breaker_reset_timeout self.
Proof.
  unfold _is_circuit_open.
  destruct (circuit_breaker_state self !! domain); simpl; [|done].
  destruct (_ <? _); simpl; [done|].
  destruct (Qlt_bool _ _); simpl; done.
Qed.

Lemma is_circuit_open_true self domain now last_failure :
  circuit_breaker_state self !! domain = Some last_failure ->
  circuit_breaker_threshold self <= default 0 (failed_callbacks self !! domain) ->
  (now - last_failure <= circuit_breaker_reset_timeout self)%Q ->
  _is_circuit_open self domain now = (true, self).
Proof.
  intros Hst Hcount Hrecent. unfold _is_circuit_open. rewrite Hst.
  destruct (Z.ltb_spec (default 0 (failed_callbacks self !! domain))
                       (circuit_breaker_threshold self)); [lia|].
  apply Qlt_bool_false_iff in Hrecent. rewrite Hrecent. reflexivity.
Qed.

Lemma is_circuit_open_reset self domain now last_failure :
  circuit_breaker_state self !! domain = Some last_failure ->
  circuit_breaker_threshold self <= default 0 (failed_callbacks self !! domain) ->
  (circuit_breaker_reset_timeout self < now - last_failure)%Q ->
  _is_circuit_open self domain now =
    (false, with_circuit (<[domain := 0]> (failed_callbacks self))
                         (delete domain (circuit_breaker_state self)) self).
Proof.
  intros Hst Hcount Hold. unfold _is_circuit_open. rewrite Hst.
  destruct (Z.ltb_spec (default 0 (failed_callbacks self !! domain))
                       (circuit_breaker_threshold self)); [lia|].
  apply Qlt_bool_iff in Hold. rewrite Hold. reflexivity.
Qed.

(** C2. A destination whose failure count has reached the threshold
    (5 by default) and whose last failure lies within the reset timeout
    (60 seconds by default) of the current time is open: [send_callback]
    returns false at once, with no network attempt and the service
    unchanged.  A destination with no recorded last failure, or with a
    failure count below the threshold, is not open. *)
Theorem open_circuit_short_circuits :
  (forall self env callback_url domain now last_failure failure_count,
      _get_domain callback_url = Some domain ->
      failed_callbacks self !! domain = Some failure_count ->
      circuit_breaker_threshold self <= failure_count ->
      circuit_breaker_state self !! domain = Some last_failure ->
      (now - last_failure <= circuit_breaker_reset_timeout self)%Q ->
      fst (_is_circuit_open self domain now) = true
      /\ send_callback self env callback_url now
         = Some (false, {| svc := self; clock := now; trace := [] |}))
  /\ (forall self domain now,
        circuit_breaker_state self !! domain = None ->
        _is_circuit_open self domain now = (false, self))
  /\ (forall self domain now,
        default 0 (failed_callbacks self !! domain) < circuit_breaker_threshold self ->
        _is_circuit_open self domain now = (false, self))
  /\ circuit_breaker_threshold CallbackService_init = 5
  /\ circuit_breaker_reset_timeout CallbackService_init = 60%Q.
Proof.
  split; [|split; [|split; [|split]]]; try reflexivity.
  - intros self env callback_url domain now last_failure failure_count
           Hdom Hcount Hthr Hst Hrecent.
    assert (_is_circuit_open self domain now = (true, self)) as Hopen.
    { eapply is_circuit_open_true; eauto. rewrite Hcount. exact Hthr. }
    split; [rewrite Hopen; reflexivity|].
    unfold send_callback. rewrite Hdom, Hopen. reflexivity.
  - intros self domain now Hst. unfold _is_circuit_open. rewrite Hst. reflexivity.
  - intros self domain now Hlow. unfold _is_circuit_open.
    destruct (circuit_breaker_state self !! domain); [|reflexivity].
    apply Z.ltb_lt in Hlow. rewrite Hlow. reflexivity.
Qed.

Lemma open_circuit_short_circuits_witness :
  let self := with_circuit {["example.com" := 5]} {["example.com" := 100%Q]}
                CallbackService_init in
  send_callback self everything_fails "http://example.com/hook" 160
  = Some (false, {| svc := self; clock := 160; trace := [] |})
  /\ _is_circuit_open CallbackService_init "example.com" 160
     = (false, CallbackService_init)
  /\ _is_circuit_open
       (with_circuit {["example.com" := 4]} {["example.com" := 100%Q]}
          CallbackService_init) "example.com" 160
     = (false, with_circuit {["example.com" := 4]} {["example.com" := 100%Q]}
                 CallbackService_init).
Proof.
  destruct open_circuit_short_circuits as (Hopen & Hnone & Hlow & _).
  split; [|split].
  - eapply (Hopen _ _ _ "example.com" _ 100%Q 5).
    + vm_compute. reflexivity.
    + reflexivity.
    + simpl. lia.
    + reflexivity.
    + simpl. unfold Qle. simpl. lia.
  - apply Hnone. reflexivity.
  - apply Hlow. vm_compute. reflexivity.
Defined.

(** The next failure after the count for [domain] was dropped or zeroed. *)
Lemma record_failure_count self domain now :
  failed_callbacks (_record_callback_failure self domain now) !! domain
  = Some (default 0 (failed_callbacks self !! domain) + 1).
Proof. unfold _record_callback_failure. simpl. apply lookup_insert_eq. Qed.

Lemma record_failure_stamp self domain now :
  circuit_breaker_state (_record_callback_failure self domain now) !! domain
  = Some now.
Proof. unfold _record_callback_failure. simpl. apply lookup_insert_eq. Qed.

Lemma record_failure_other self domain other now :
  domain <> other ->
  failed_callbacks (_record_callback_failure self domain now) !! other
  = failed_callbacks self !! other
  /\ circuit_breaker_state (_record_callback_failure self domain now) !! other
     = circuit_breaker_state self !! other.
Proof.
  intros Hne. unfold _record_callback_failure. simpl.
  rewrite !lookup_insert_ne by done. done.
Qed.

Lemma record_success_cleared self domain :
  failed_callbacks (_record_callback_success self domain) !! domain = None
  /\ circuit_breaker_state (_record_callback_success self domain) !! domain = None.
Proof.
  unfold _record_callback_success. simpl. rewrite !lookup_delete_eq. done.
Qed.

(** C3 as stated fails for a count below the threshold: with 4 failures
    recorded at time 0 and the circuit checked at time 1000, long after the
    60-second reset timeout, the check leaves the service as it is and the
    next failure raises the count to 5. *)
Lemma stale_count_below_threshold_survives :
  let self := with_circuit {["example.com" := 4]} {["example.com" := 0%Q]}
                CallbackService_init in
  (circuit_breaker_reset_timeout self < 1000 - 0)%Q
  /\ _is_circuit_open self "example.com" 1000 = (false, self)
  /\ failed_callbacks
       (_record_callback_failure (snd (_is_circuit_open self "example.com" 1000))
          "example.com" 1001) !! "example.com" = Some 5.
Proof.
  split; [|split].
  - vm_compute. reflexivity.
  - reflexivity.
  - reflexivity.
Qed.

(** C3, amended.  A recorded success removes the destination from both
    maps.  Once the reset timeout has elapsed past the last failure of a
    destination whose failure count has reached the threshold, the next
    circuit check reports the circuit closed, sets the failure count to 0
    and removes the last-failure stamp.  In either case the next recorded
    failure sets the failure count to exactly 1. *)
Theorem reset_restarts_failure_count self domain :
  (failed_callbacks (_record_callback_success self domain) !! domain = None
   /\ circuit_breaker_state (_record_callback_success self domain) !! domain = None
   /\ forall now,
        failed_callbacks
          (_record_callback_failure (_record_callback_success self domain) domain now)
          !! domain = Some 1)
  /\ (forall now last_failure,
        circuit_breaker_state self !! domain = Some last_failure ->
        circuit_breaker_threshold self <= default 0 (failed_callbacks self !! domain) ->
        (circuit_breaker_reset_timeout self < now - last_failure)%Q ->
        fst (_is_circuit_open self domain now) = false
        /\ failed_callbacks (snd (_is_circuit_open self domain now)) !! domain = Some 0
        /\ circuit_breaker_state (snd (_is_circuit_open self domain now)) !! domain = None
        /\ forall now',
             failed_callbacks
               (_record_callback_failure (snd (_is_circuit_open self domain now))
                  domain now') !! domain = Some 1).
Proof.
  split.
  - destruct (record_success_cleared self domain) as [Hf Hs].
    split; [exact Hf|split; [exact Hs|]].
    intros now. rewrite record_failure_count, Hf. reflexivity.
  - intros now last_failure Hst Hthr Hold.
    rewrite (is_circuit_open_reset _ _ _ _ Hst Hthr Hold). cbn [fst snd].
    split; [reflexivity|].
    split; [apply lookup_insert_eq|].
    split; [apply lookup_delete_eq|].
    intros now'. rewrite record_failure_count. cbn [failed_callbacks with_circuit].
    rewrite lookup_insert_eq. reflexivity.
Qed.

Lemma reset_restarts_failure_count_witness :
  let self := with_circuit {["example.com" := 7]} {["example.com" := 0%Q]}
                CallbackService_init in
  fst (_is_circuit_open self "example.com" 61) = false
  /\ failed_callbacks
       (_record_callback_failure (snd (_is_circuit_open self "example.com" 61))
          "example.com" 62) !! "example.com" = Some 1.
Proof.
  intros self.
  destruct (reset_restarts_failure_count self "example.com") as [_ Hreset].
  destruct (Hreset 61%Q 0%Q) as (Hclosed & _ & _ & Hnext).
  - reflexivity.
  - vm_compute. discriminate.
  - vm_compute. reflexivity.
  - split; [exact Hclosed | apply Hnext].
Defined.

(** *** The retry loop *)

Lemma is_success_false_iff res :
  is_success res = false <-> res <> HttpResponse 200.
Proof.
  destruct res as [status| | |]; simpl; try (split; [discriminate|reflexivity]).
  rewrite Z.eqb_neq. split; [congruence|]. intros H ->. apply H. reflexivity.
Qed.

Lemma is_success_true_iff res :
  is_success res = true <-> res = HttpResponse 200.
Proof.
  destruct res as [status| | |]; simpl; try (split; discriminate).
  rewrite Z.eqb_eq. split; congruence.
Qed.

(** While no attempt succeeds the loop runs through the whole range, leaves
    the service alone, and its network activity is that of the failed
    attempts in order. *)
Lemma attempt_loop_all_fail env callback_url domain todo :
  forall attempt r,
    (forall k, (attempt <= k < attempt + todo)%nat -> is_success (post env k) = false) ->
    exists r',
      attempt_loop env callback_url domain todo attempt r = (false, r')
      /\ svc r' = svc r
      /\ trace r' = trace r ++
           flat_map (failed_attempt_events (svc r) env callback_url) (seq attempt todo).
Proof.
  induction todo as [|todo IH]; intros attempt r Hfail.
  - exists r. simpl. rewrite app_nil_r. done.
  - assert (is_success (post env attempt) = false) as Hhere
        by (apply Hfail; clear; lia).
    assert (forall k, (S attempt <= k < S attempt + todo)%nat ->
                      is_success (post env k) = false) as Hlater
        by (intros k Hk; apply Hfail; clear - Hk; lia).
    simpl. rewrite Hhere. unfold failed_attempt_events at 1.
    destruct (Z.of_nat attempt <? Z.of_nat (max_retries (svc r)) - 1);
      edestruct IH as (r' & Hrun & Hsvc & Htr); try exact Hlater;
      exists r'; rewrite Hrun; simpl in Hsvc, Htr;
      rewrite Hsvc, Htr; simpl; rewrite <- ?app_assoc; done.
Qed.

(** When attempt [k] is the first to succeed the loop returns true there,
    after recording the success. *)
Lemma attempt_loop_first_success env callback_url domain todo :
  forall attempt r k,
    (attempt <= k < attempt + todo)%nat ->
    is_success (post env k) = true ->
    (forall j, (attempt <= j < k)%nat -> is_success (post env j) = false) ->
    exists r',
      attempt_loop env callback_url domain todo attempt r = (true, r')
      /\ svc r' = _record_callback_success (svc r) domain
      /\ trace r' = trace r ++
           flat_map (failed_attempt_events (svc r) env callback_url)
                    (seq attempt (k - attempt))
           ++ [Post callback_url k].
Proof.
  induction todo as [|todo IH]; intros attempt r k Hk Hok Hbefore;
    [exfalso; clear - Hk; lia|].
  simpl. destruct (decide (attempt = k)) as [->|Hne].
  - rewrite Hok. eexists. split; [reflexivity|]. simpl.
    rewrite Nat.sub_diag. simpl. done.
  - assert (is_success (post env attempt) = false) as Hhere
        by (apply Hbefore; clear - Hk Hne; lia).
    assert (forall j, (S attempt <= j < k)%nat ->
                      is_success (post env j) = false) as Hlater
        by (intros j Hj; apply Hbefore; clear - Hj; lia).
    assert (S attempt <= k < S attempt + todo)%nat as Hk'
        by (clear - Hk Hne; lia).
    rewrite Hhere.
    replace (k - attempt)%nat with (S (k - S attempt)) by (clear - Hk Hne; lia).
    simpl. unfold failed_attempt_events at 1.
    destruct (Z.of_nat attempt <? Z.of_nat (max_retries (svc r)) - 1);
      edestruct (IH (S attempt)) as (r' & Hrun & Hsvc & Htr);
      try exact Hlater; try exact Hk'; try exact Hok;
      exists r'; rewrite Hrun; simpl in Hsvc, Htr;
      rewrite Hsvc, Htr; simpl; rewrite <- ?app_assoc; done.
Qed.

Lemma posts_failed_attempts self env callback_url l :
  posts (flat_map (failed_attempt_events self env callback_url) l)
  = List.map (Post callback_url) l.
Proof.
  unfold posts. induction l as [|k l IH]; [reflexivity|].
  simpl. f_equal.
  destruct (Z.of_nat k <? Z.of_nat (max_retries self) - 1); simpl; exact IH.
Qed.

Lemma is_circuit_open_other self domain other now :
  domain <> other ->
  failed_callbacks (snd (_is_circuit_open self domain now)) !! other
  = failed_callbacks self !! other
  /\ circuit_breaker_state (snd (_is_circuit_open self domain now)) !! other
     = circuit_breaker_state self !! other.
Proof.
  intros Hne. unfold _is_circuit_open.
  destruct (circuit_breaker_state self !! domain); simpl; [|done].
  destruct (_ <? _); simpl; [done|].
  destruct (Qlt_bool _ _); simpl; [|done].
  rewrite lookup_insert_ne, lookup_delete_ne by done. done.
Qed.

(** A delivery on a closed circuit in which no attempt is answered with
    status 200: every attempt of the range is made, then the failure is
    recorded once, stamped with the clock reached after the last attempt. *)
Lemma send_callback_all_fail self env callback_url domain now :
  _get_domain callback_url = Some domain ->
  fst (_is_circuit_open self domain now) = false ->
  (forall k, (k < max_retries self)%nat -> post env k <> HttpResponse 200) ->
  let checked := snd (_is_circuit_open self domain now) in
  exists r,
    send_callback self env callback_url now = Some (false, r)
    /\ trace r = flat_map (failed_attempt_events checked env callback_url)
                          (seq 0 (max_retries self))
    /\ svc r = _record_callback_failure checked domain (clock r).
Proof.
  intros Hdom Hclosed Hfail checked.
  destruct (is_circuit_open_config self domain now) as (Hn & _).
  unfold send_callback. rewrite Hdom.
  destruct (_is_circuit_open self domain now) as [is_open self'] eqn:Hcheck.
  simpl in Hclosed, Hn. subst is_open. subst checked. simpl.
  edestruct (attempt_loop_all_fail env callback_url domain (max_retries self') 0
               {| svc := self'; clock := now; trace := [] |})
    as (r' & Hrun & Hsvc & Htr).
  { intros k Hk. apply is_success_false_iff, Hfail. rewrite <- Hn. apply Hk. }
  rewrite Hrun. eexists. split; [reflexivity|]. simpl in *.
  rewrite Htr, Hsvc, Hn. done.
Qed.

(** C4. A delivery on a closed circuit whose every attempt fails makes
    exactly [max_retries] attempts (3 by default), numbered from 0, and
    then records exactly one failure for the destination, stamped with the
    clock reached after the last attempt; other destinations are left as
    they were.  Between attempt [k] and attempt [k + 1] the task sleeps for
    at least [retry_delay * 2 ^ k]. *)
Theorem failing_delivery_retries self env callback_url domain now :
  _get_domain callback_url = Some domain ->
  fst (_is_circuit_open self domain now) = false ->
  (forall k, (k < max_retries self)%nat -> post env k <> HttpResponse 200) ->
  (forall k, (1 # 10 <= jitter env k)%Q /\ (jitter env k <= 3 # 10)%Q) ->
  exists r,
    send_callback self env callback_url now = Some (false, r)
    /\ posts (trace r) = List.map (Post callback_url) (seq 0 (max_retries self))
    /\ failed_callbacks (svc r) !! domain
       = Some (default 0
                 (failed_callbacks (snd (_is_circuit_open self domain now)) !! domain)
               + 1)
    /\ circuit_breaker_state (svc r) !! domain = Some (clock r)
    /\ (forall other, domain <> other ->
          failed_callbacks (svc r) !! other = failed_callbacks self !! other
          /\ circuit_breaker_state (svc r) !! other
             = circuit_breaker_state self !! other)
    /\ (forall k, (S k < max_retries self)%nat ->
          exists before delay after,
            trace r = before
                      ++ [Post callback_url k; Sleep delay; Post callback_url (S k)]
                      ++ after
            /\ (retry_delay self * inject_Z (2 ^ Z.of_nat k) <= delay)%Q)
    /\ max_retries CallbackService_init = 3%nat.
Proof.
  intros Hdom Hclosed Hfail Hjit.
  destruct (send_callback_all_fail self env callback_url domain now Hdom Hclosed Hfail)
    as (r & Hsend & Htr & Hsvc).
  destruct (is_circuit_open_config self domain now) as (Hn & Hdelay & _).
  set (checked := snd (_is_circuit_open self domain now)) in *.
  exists r. split; [exact Hsend|].
  split; [rewrite Htr; apply posts_failed_attempts|].
  split; [rewrite Hsvc; apply record_failure_count|].
  split; [rewrite Hsvc; apply record_failure_stamp|].
  split.
  { intros other Hne. rewrite Hsvc.
    destruct (record_failure_other checked domain other (clock r) Hne) as [-> ->].
    apply is_circuit_open_other, Hne. }
  split; [|reflexivity].
  intros k Hk.
  exists (flat_map (failed_attempt_events checked env callback_url) (seq 0 k)),
         (backoff checked env k),
         (List.tl (failed_attempt_events checked env callback_url (S k))
          ++ flat_map (failed_attempt_events checked env callback_url)
               (seq (S (S k)) (max_retries self - S (S k)))).
  split.
  - rewrite Htr.
    replace (max_retries self) with (k + S (S (max_retries self - S (S k))))%nat
      at 1 by lia.
    rewrite seq_app, flat_map_app. f_equal. simpl.
    unfold failed_attempt_events at 1.
    destruct (Z.ltb_spec (Z.of_nat k) (Z.of_nat (max_retries checked) - 1)) as [_|Hge];
      [|rewrite Hn in Hge; lia].
    reflexivity.
  - unfold backoff. rewrite Hdelay.
    destruct (Hjit k) as [Hlo _].
    assert (0 <= jitter env k)%Q by (eapply Qle_trans; [|exact Hlo]; discriminate).
    rewrite <- Qplus_0_r at 1. apply Qplus_le_r. assumption.
Qed.

Lemma failing_delivery_retries_witness :
  exists r,
    send_callback CallbackService_init everything_fails
      "https://example.com/callback" 0 = Some (false, r)
    /\ posts (trace r)
       = [Post "https://example.com/callback" 0;
          Post "https://example.com/callback" 1;
          Post "https://example.com/callback" 2]
    /\ failed_callbacks (svc r) !! "example.com" = Some 1.
Proof.
  destruct (failing_delivery_retries CallbackService_init everything_fails
              "https://example.com/callback" "example.com" 0)
    as (r & Hsend & Hposts & Hcount & _).
  - vm_compute. reflexivity.
  - reflexivity.
  - intros k _. simpl. discriminate.
  - intros k. simpl. split; discriminate.
  - exists r. split; [exact Hsend|]. split; [exact Hposts|exact Hcount].
Defined.

(** C5 as stated fails for the 2xx statuses other than 200: a destination
    that answers every attempt with 204 sees all three attempts, the call
    returns false, and a circuit failure is recorded. *)
Lemma status_204_is_a_failed_attempt :
  let env := {| post := fun _ => HttpResponse 204;
                post_duration := fun _ => 0%Q;
                jitter := fun _ => (1 # 10)%Q |} in
  match send_callback CallbackService_init env "https://example.com/callback" 0 with
  | Some (delivered, r) =>
      delivered = false
      /\ posts (trace r)
         = [Post "https://example.com/callback" 0;
            Post "https://example.com/callback" 1;
            Post "https://example.com/callback" 2]
      /\ failed_callbacks (svc r) !! "example.com" = Some 1
  | None => False
  end.
Proof. vm_compute. repeat split; reflexivity. Qed.

(** C5, amended.  On a closed circuit a response with status 200 is the
    success signal: at the first attempt answered with 200 the success is
    recorded (the destination leaves both maps) and the call returns true
    without further attempts.  Any other outcome of an attempt (another
    status, 2xx or not, a timeout, a client error, another exception) is a
    failed attempt: the loop goes on to the next attempt, and when no
    attempt of the range is answered with 200 the failure is recorded and
    the call returns false. *)
Theorem status_200_is_the_success_signal self env callback_url domain now :
  _get_domain callback_url = Some domain ->
  fst (_is_circuit_open self domain now) = false ->
  (forall k,
      (k < max_retries self)%nat ->
      post env k = HttpResponse 200 ->
      (forall j, (j < k)%nat -> post env j <> HttpResponse 200) ->
      exists r,
        send_callback self env callback_url now = Some (true, r)
        /\ posts (trace r) = List.map (Post callback_url) (seq 0 (S k))
        /\ failed_callbacks (svc r) !! domain = None
        /\ circuit_breaker_state (svc r) !! domain = None)
  /\ ((forall k, (k < max_retries self)%nat -> post env k <> HttpResponse 200) ->
      exists r,
        send_callback self env callback_url now = Some (false, r)
        /\ posts (trace r) = List.map (Post callback_url) (seq 0 (max_retries self))
        /\ failed_callbacks (svc r) !! domain
           = Some (default 0
                     (failed_callbacks (snd (_is_circuit_open self domain now))
                        !! domain) + 1)
        /\ circuit_breaker_state (svc r) !! domain = Some (clock r)).
Proof.
  intros Hdom Hclosed. split.
  - intros k Hk Hok Hbefore.
    destruct (is_circuit_open_config self domain now) as (Hn & _).
    unfold send_callback. rewrite Hdom.
    destruct (_is_circuit_open self domain now) as [is_open self'] eqn:Hcheck.
    simpl in Hclosed, Hn. subst is_open.
    edestruct (attempt_loop_first_success env callback_url domain (max_retries self') 0
                 {| svc := self'; clock := now; trace := [] |} k)
      as (r' & Hrun & Hsvc & Htr).
    { rewrite Hn. lia. }
    { apply is_success_true_iff, Hok. }
    { intros j Hj. apply is_success_false_iff, Hbefore. lia. }
    rewrite Hrun. exists r'. split; [reflexivity|]. simpl in Hsvc, Htr.
    split.
    + rewrite Htr, Nat.sub_0_r, seq_S, List.map_app. unfold posts.
      rewrite List.filter_app. fold (posts (flat_map
        (failed_attempt_events self' env callback_url) (seq 0 k))).
      rewrite posts_failed_attempts. reflexivity.
    + rewrite Hsvc. apply record_success_cleared.
  - intros Hfail.
    destruct (send_callback_all_fail self env callback_url domain now Hdom Hclosed Hfail)
      as (r & Hsend & Htr & Hsvc).
    exists r. split; [exact Hsend|].
    destruct (is_circuit_open_config self domain now) as (Hn & _).
    split; [rewrite Htr; apply posts_failed_attempts|].
    split; [rewrite Hsvc; apply record_failure_count|].
    rewrite Hsvc; apply record_failure_stamp.
Qed.

Lemma status_200_is_the_success_signal_witness :
  let env := {| post := fun k => if (k =? 1)%nat then HttpResponse 200
                                 else RaisesTimeoutError;
                post_duration := fun _ => 0%Q;
                jitter := fun _ => (1 # 10)%Q |} in
  exists r,
    send_callback CallbackService_init env "https://example.com/callback" 0
    = Some (true, r)
    /\ posts (trace r)
       = [Post "https://example.com/callback" 0;
          Post "https://example.com/callback" 1].
Proof.
  intros env.
  destruct (status_200_is_the_success_signal CallbackService_init env
              "https://example.com/callback" "example.com" 0) as [Hok _].
  - vm_compute. reflexivity.
  - reflexivity.
  - destruct (Hok 1%nat) as (r & Hsend & Hposts & _).
    + simpl. lia.
    + reflexivity.
    + intros j Hj. assert (j = 0%nat) as -> by lia. simpl. discriminate.
    + exists r. split; [exact Hsend|exact Hposts].
Defined.

(** *** The circuit key *)

Lemma remove_append c a b : remove c (a +:+ b) = remove c a +:+ remove c b.
Proof.
  induction a as [|x a IH]; simpl; [reflexivity|].
  destruct (Ascii.eqb x c); simpl; rewrite IH; reflexivity.
Qed.

Lemma remove_absent c s :
  all_chars (fun x => negb (Ascii.eqb x c)) s = true -> remove c s = s.
Proof.
  induction s as [|x s IH]; simpl; [reflexivity|].
  intros [Hx Hs]%andb_true_iff. apply negb_true_iff in Hx. rewrite Hx.
  f_equal. apply IH, Hs.
Qed.

Lemma all_chars_impl (p q : ascii -> bool) s :
  (forall c, p c = true -> q c = true) ->
  all_chars p s = true -> all_chars q s = true.
Proof.
  intros Hpq. induction s as [|x s IH]; simpl; [reflexivity|].
  intros [Hx Hs]%andb_true_iff. rewrite (Hpq _ Hx), (IH Hs). reflexivity.
Qed.

Lemma contains_absent c s :
  all_chars (fun x => negb (Ascii.eqb x c)) s = true -> contains c s = false.
Proof.
  induction s as [|x s IH]; simpl; [reflexivity|].
  intros [Hx Hs]%andb_true_iff. apply negb_true_iff in Hx. rewrite Hx.
  apply IH, Hs.
Qed.

Lemma break_at_append stop a b :
  all_chars (fun x => negb (stop x)) a = true ->
  match b with EmptyString => true | String c _ => stop c end = true ->
  break_at stop (a +:+ b) = (a, b).
Proof.
  intros Ha Hb. induction a as [|x a IH]; simpl.
  - destruct b as [|c b]; simpl; [reflexivity|]. rewrite Hb. reflexivity.
  - simpl in Ha. apply andb_true_iff in Ha as [Hx Ha].
    apply negb_true_iff in Hx. rewrite Hx, (IH Ha). reflexivity.
Qed.

Lemma netloc_char_spec c :
  netloc_char c = true ->
  in_range 0 127 c = true
  /\ urllib.is_netloc_delim c = false
  /\ Ascii.eqb c "[" = false /\ Ascii.eqb c "]" = false.
Proof.
  unfold netloc_char, contains.
  rewrite (Ascii.eqb_sym "[" c), (Ascii.eqb_sym "]" c).
  destruct (in_range 0 127 c), (urllib.is_netloc_delim c),
    (Ascii.eqb c "["), (Ascii.eqb c "]");
    simpl; intros H; try discriminate H; repeat split.
Qed.

Lemma starts_rest_remove b rest :
  urllib.is_netloc_delim b = false ->
  starts_rest rest = true -> starts_rest (remove b rest) = true.
Proof.
  intros Hb. destruct rest as [|c rest]; simpl; [reflexivity|].
  intros Hc. destruct (Ascii.eqb_spec c b) as [->|_]; [congruence|].
  simpl. exact Hc.
Qed.

Lemma all_chars_remove p b s :
  all_chars p s = true -> all_chars p (remove b s) = true.
Proof.
  induction s as [|x s IH]; simpl; [reflexivity|].
  intros [Hx Hs]%andb_true_iff.
  destruct (Ascii.eqb x b); simpl; [|rewrite Hx]; apply IH, Hs.
Qed.

Lemma all_chars_without_unsafe p s :
  all_chars p s = true -> all_chars p (without_unsafe s) = true.
Proof.
  intros H. unfold without_unsafe.
  cbn [fold_left urllib._UNSAFE_URL_BYTES_TO_REMOVE].
  repeat apply all_chars_remove. exact H.
Qed.

Lemma without_unsafe_append a b :
  without_unsafe (a +:+ b) = without_unsafe a +:+ without_unsafe b.
Proof.
  unfold without_unsafe. cbn [fold_left urllib._UNSAFE_URL_BYTES_TO_REMOVE].
  rewrite !remove_append. reflexivity.
Qed.

Lemma without_unsafe_clean s :
  all_chars (fun c => negb (existsb (Ascii.eqb c) urllib._UNSAFE_URL_BYTES_TO_REMOVE)) s
  = true ->
  without_unsafe s = s.
Proof.
  intros Hclean. unfold without_unsafe.
  cbn [fold_left urllib._UNSAFE_URL_BYTES_TO_REMOVE].
  rewrite (remove_absent "009" s), (remove_absent "013" s),
    (remove_absent "010" s); [reflexivity|..];
    (eapply all_chars_impl; [|exact Hclean]);
    intros c Hc; cbn [existsb urllib._UNSAFE_URL_BYTES_TO_REMOVE] in Hc;
    destruct (Ascii.eqb c "009"), (Ascii.eqb c "013"), (Ascii.eqb c "010");
    simpl in Hc; try discriminate Hc; reflexivity.
Qed.

(** An ASCII network location passes [_checknetloc] at once. *)
Lemma checknetloc_ascii netloc :
  urllib.isascii netloc = true -> urllib._checknetloc netloc = true.
Proof.
  intros Hascii. unfold urllib._checknetloc. rewrite Hascii, orb_true_r.
  reflexivity.
Qed.

(** The normal form of a code point below 256 holds one of the five
    characters [_checknetloc] looks for only when the code point is that
    character. *)
Lemma nfkc_char_delimiter c d :
  In d (urllib.code_points "/?#@:") ->
  existsb (N.eqb d) (urllib.nfkc_char c) = true -> N_of_ascii c = d.
Proof.
  intros Hd Hhit.
  cbn in Hd. destruct Hd as [<-|[<-|[<-|[<-|[<-|[]]]]]];
    destruct c as [[] [] [] [] [] [] [] []];
    vm_compute in Hhit; try discriminate Hhit; reflexivity.
Qed.

Lemma nfkc_delimiter n d :
  In d (urllib.code_points "/?#@:") ->
  existsb (N.eqb d) (urllib.NFKC n) = true ->
  existsb (N.eqb d) (urllib.code_points n) = true.
Proof.
  intros Hd. unfold urllib.NFKC, urllib.code_points.
  induction n as [|c n IH]; [discriminate|].
  cbn [list_ascii_of_string flat_map List.map existsb].
  rewrite existsb_app. intros [Hhere|Hlater]%orb_true_iff.
  - rewrite (nfkc_char_delimiter c d Hd Hhere), N.eqb_refl. reflexivity.
  - rewrite (IH Hlater). apply orb_true_r.
Qed.

Lemma code_points_contains c n :
  existsb (N.eqb (N_of_ascii c)) (urllib.code_points n) = contains c n.
Proof.
  unfold urllib.code_points. induction n as [|a n IH]; [reflexivity|].
  cbn [list_ascii_of_string List.map existsb contains]. rewrite IH.
  destruct (Ascii.eqb_spec a c) as [->|Hne].
  - rewrite N.eqb_refl. reflexivity.
  - destruct (N.eqb_spec (N_of_ascii c) (N_of_ascii a)) as [Heq|_]; [|reflexivity].
    exfalso. apply Hne.
    rewrite <- (ascii_N_embedding a), <- (ascii_N_embedding c), Heq. reflexivity.
Qed.

Lemma contains_remove_same c s : contains c (remove c s) = false.
Proof.
  induction s as [|a s IH]; [reflexivity|]. cbn [remove].
  destruct (Ascii.eqb a c) eqn:Hac; [exact IH|].
  cbn [contains]. rewrite Hac. exact IH.
Qed.

Lemma contains_remove c b s :
  contains c s = false -> contains c (remove b s) = false.
Proof.
  induction s as [|a s IH]; [reflexivity|]. cbn [remove contains].
  destruct (Ascii.eqb a c) eqn:Hac; [discriminate|]. intros Hs.
  destruct (Ascii.eqb a b); [apply IH, Hs|].
  cbn [contains]. rewrite Hac. apply IH, Hs.
Qed.

(** On the text a [string] can hold, [_checknetloc] refuses no network
    location: one cut off at the first '/', '?' or '#' holds no '/', and
    the normal forms of the code points below 256 bring in none of the
    five characters. *)
Lemma checknetloc_passes netloc :
  contains "/" netloc = false -> urllib._checknetloc netloc = true.
Proof.
  intros Hslash. unfold urllib._checknetloc.
  destruct (String.eqb netloc "" || urllib.isascii netloc); [reflexivity|].
  set (n := remove "?" (remove "#" (remove ":" (remove "@" netloc)))).
  destruct (bool_decide (urllib.code_points n = urllib.NFKC n)); [reflexivity|].
  apply negb_true_iff.
  assert (forall c, In c (list_ascii_of_string "/?#@:") -> contains c n = false)
    as Hclean.
  { intros c Hc. subst n. cbn in Hc.
    destruct Hc as [<-|[<-|[<-|[<-|[<-|[]]]]]].
    - repeat apply contains_remove. exact Hslash.
    - apply contains_remove_same.
    - apply contains_remove, contains_remove_same.
    - do 3 apply contains_remove. apply contains_remove_same.
    - do 2 apply contains_remove. apply contains_remove_same. }
  assert (forall c, In c (list_ascii_of_string "/?#@:") ->
                    existsb (N.eqb (N_of_ascii c)) (urllib.NFKC n) = false) as Hnone.
  { intros c Hc.
    destruct (existsb (N.eqb (N_of_ascii c)) (urllib.NFKC n)) eqn:Hhit;
      [|reflexivity].
    apply nfkc_delimiter in Hhit; [|apply in_map, Hc].
    rewrite code_points_contains, (Hclean c Hc) in Hhit. discriminate Hhit. }
  unfold urllib.code_points at 1. cbn [list_ascii_of_string List.map existsb].
  rewrite !(Hnone _) by (cbn; tauto). reflexivity.
Qed.

(** What [urlparse] makes of an http or https URL with an ASCII network
    location free of brackets. *)
Lemma urlparse_netloc sch netloc rest :
  sch = "http" \/ sch = "https" ->
  all_chars netloc_char netloc = true ->
  starts_rest rest = true ->
  exists rest',
    urllib.urlparse (sch +:+ "://" +:+ netloc +:+ rest)
    = Some {| urllib.scheme := sch; urllib.netloc := without_unsafe netloc;
              urllib.rest := rest' |}.
Proof.
  intros Hsch Hnetloc Hrest.
  set (netloc' := without_unsafe netloc).
  assert (all_chars netloc_char netloc' = true) as Hnetloc'
      by (apply all_chars_without_unsafe, Hnetloc).
  assert (contains "[" netloc' = false /\ contains "]" netloc' = false)
    as [Hopen Hclose].
  { split; apply contains_absent; (eapply all_chars_impl; [|exact Hnetloc']);
      intros c Hc; apply netloc_char_spec in Hc as (_ & _ & Ho & Hc');
      [rewrite Ho | rewrite Hc']; reflexivity. }
  assert (all_chars (fun x => negb (urllib.is_netloc_delim x)) netloc' = true)
    as Hnodelim.
  { eapply all_chars_impl; [|exact Hnetloc'].
    intros c Hc. apply netloc_char_spec in Hc as (_ & -> & _). reflexivity. }
  assert (urllib._checknetloc netloc' = true) as Hcheck.
  { apply checknetloc_ascii. unfold urllib.isascii.
    eapply all_chars_impl; [|exact Hnetloc'].
    intros c Hc. apply netloc_char_spec in Hc as (Hc & _). exact Hc. }
  set (rest' := without_unsafe rest).
  assert (starts_rest rest' = true) as Hrest'.
  { subst rest'. unfold without_unsafe.
    cbn [fold_left urllib._UNSAFE_URL_BYTES_TO_REMOVE].
    repeat apply starts_rest_remove; try reflexivity. exact Hrest. }
  exists (snd (urllib._splitnetloc (netloc' +:+ rest'))).
  unfold urllib.urlparse.
  destruct Hsch as [-> | ->].
  - change (lstrip urllib._WHATWG_C0_CONTROL_OR_SPACE
              ("http" +:+ "://" +:+ netloc +:+ rest))
      with ("http://" +:+ netloc +:+ rest).
    change (fold_left (fun u b => remove b u) urllib._UNSAFE_URL_BYTES_TO_REMOVE
              ("http://" +:+ netloc +:+ rest))
      with (without_unsafe ("http://" +:+ netloc +:+ rest)).
    rewrite !without_unsafe_append. fold netloc' rest'.
    change (without_unsafe "http://") with "http://".
    change (urllib.split_scheme ("http://" +:+ netloc' +:+ rest'))
      with ("http", "//" +:+ netloc' +:+ rest').
    cbn iota beta. change ("//" +:+ netloc' +:+ rest')
      with (String "/" (String "/" (netloc' +:+ rest'))).
    cbn iota beta. unfold urllib._splitnetloc.
    rewrite (break_at_append _ _ _ Hnodelim Hrest'), Hopen, Hclose, Hcheck.
    reflexivity.
  - change (lstrip urllib._WHATWG_C0_CONTROL_OR_SPACE
              ("https" +:+ "://" +:+ netloc +:+ rest))
      with ("https://" +:+ netloc +:+ rest).
    change (fold_left (fun u b => remove b u) urllib._UNSAFE_URL_BYTES_TO_REMOVE
              ("https://" +:+ netloc +:+ rest))
      with (without_unsafe ("https://" +:+ netloc +:+ rest)).
    rewrite !without_unsafe_append. fold netloc' rest'.
    change (without_unsafe "https://") with "https://".
    change (urllib.split_scheme ("https://" +:+ netloc' +:+ rest'))
      with ("https", "//" +:+ netloc' +:+ rest').
    cbn iota beta. change ("//" +:+ netloc' +:+ rest')
      with (String "/" (String "/" (netloc' +:+ rest'))).
    cbn iota beta. unfold urllib._splitnetloc.
    rewrite (break_at_append _ _ _ Hnodelim Hrest'), Hopen, Hclose, Hcheck.
    reflexivity.
Qed.

(** C8 as stated fails for ports: two callback URLs on the same host but on
    different ports are given different circuit keys. *)
Lemma same_host_other_port_other_key :
  option_map urllib.hostname (urllib.urlparse "http://example.com:8080/hook")
  = Some (Some "example.com")
  /\ option_map urllib.hostname (urllib.urlparse "http://example.com:9090/hook")
     = Some (Some "example.com")
  /\ _get_domain "http://example.com:8080/hook" = Some "example.com:8080"
  /\ _get_domain "http://example.com:9090/hook" = Some "example.com:9090"
  /\ _get_domain "http://example.com:8080/hook"
     <> _get_domain "http://example.com:9090/hook".
Proof. vm_compute. repeat split; discriminate. Qed.

(** C8, amended.  The circuit key derived from a callback URL is the
    network location of the URL (host together with any port and user
    information) as written, except that tab, carriage-return and
    line-feed characters are dropped, whatever the scheme and whatever
    follows the network location: two http or https URLs derive the same
    key exactly when their network locations are equal once those
    characters are dropped, and a network location without such characters
    is its own key.  Stated for ASCII network locations free of
    brackets. *)
Theorem circuit_key_is_netloc sch1 sch2 netloc1 netloc2 rest1 rest2 :
  sch1 = "http" \/ sch1 = "https" ->
  sch2 = "http" \/ sch2 = "https" ->
  all_chars netloc_char netloc1 = true ->
  all_chars netloc_char netloc2 = true ->
  starts_rest rest1 = true ->
  starts_rest rest2 = true ->
  _get_domain (sch1 +:+ "://" +:+ netloc1 +:+ rest1) = Some (without_unsafe netloc1)
  /\ _get_domain (sch2 +:+ "://" +:+ netloc2 +:+ rest2)
     = Some (without_unsafe netloc2)
  /\ (_get_domain (sch1 +:+ "://" +:+ netloc1 +:+ rest1)
      = _get_domain (sch2 +:+ "://" +:+ netloc2 +:+ rest2)
      <-> without_unsafe netloc1 = without_unsafe netloc2)
  /\ (forall netloc,
        all_chars
          (fun c => negb (existsb (Ascii.eqb c) urllib._UNSAFE_URL_BYTES_TO_REMOVE))
          netloc = true ->
        without_unsafe netloc = netloc).
Proof.
  intros Hs1 Hs2 Hn1 Hn2 Hr1 Hr2.
  destruct (urlparse_netloc sch1 netloc1 rest1 Hs1 Hn1 Hr1) as [r1 H1].
  destruct (urlparse_netloc sch2 netloc2 rest2 Hs2 Hn2 Hr2) as [r2 H2].
  unfold _get_domain. rewrite H1, H2. simpl.
  split; [reflexivity|]. split; [reflexivity|].
  split; [split; congruence|]. exact without_unsafe_clean.
Qed.

Lemma circuit_key_is_netloc_witness :
  _get_domain "http://example.com:8080/hook?x=1"
  = _get_domain "https://example.com:8080/other"
  /\ _get_domain ("http://exa" +:+ String "009" "mple.com/hook")
     = _get_domain "http://example.com/hook".
Proof.
  split.
  - apply (circuit_key_is_netloc "http" "https" "example.com:8080"
             "example.com:8080" "/hook?x=1" "/other");
      [left; reflexivity | right; reflexivity | reflexivity ..].
  - apply (circuit_key_is_netloc "http" "http"
             ("exa" +:+ String "009" "mple.com") "example.com" "/hook" "/hook");
      [left; reflexivity | left; reflexivity | reflexivity ..].
Defined.

(** *** The statistics snapshot *)

Lemma is_circuit_open_cases self domain now :
  _is_circuit_open self domain now =
    if reset_due self domain now
    then (false, with_circuit (<[domain := 0]> (failed_callbacks self))
                              (delete domain (circuit_breaker_state self)) self)
    else (fst (_is_circuit_open self domain now), self).
Proof.
  unfold _is_circuit_open, reset_due.
  destruct (circuit_breaker_state self !! domain); [|reflexivity].
  rewrite Z.leb_antisym.
  destruct (_ <? _); simpl; [reflexivity|].
  destruct (Qlt_bool _ _); reflexivity.
Qed.

(** The circuit check of one domain reads nothing but that domain's
    entries and the two settings. *)
Lemma is_circuit_open_local s1 s2 domain now :
  failed_callbacks s1 !! domain = failed_callbacks s2 !! domain ->
  circuit_breaker_state s1 !! domain = circuit_breaker_state s2 !! domain ->
  circuit_breaker_threshold s1 = circuit_breaker_threshold s2 ->
  circuit_breaker_reset_timeout s1 = circuit_breaker_reset_timeout s2 ->
  fst (_is_circuit_open s1 domain now) = fst (_is_circuit_open s2 domain now)
  /\ reset_due s1 domain now = reset_due s2 domain now
  /\ reported s1 domain now = reported s2 domain now.
Proof.
  intros Hf Hs Ht Hr.
  assert (fst (_is_circuit_open s1 domain now) = fst (_is_circuit_open s2 domain now))
    as Hopen.
  { unfold _is_circuit_open. rewrite Hf, Hs, Ht, Hr.
    destruct (circuit_breaker_state s2 !! domain); [|reflexivity].
    destruct (_ <? _); [reflexivity|]. destruct (Qlt_bool _ _); reflexivity. }
  split; [exact Hopen|]. split.
  - unfold reset_due. rewrite Hf, Hs, Ht, Hr. reflexivity.
  - unfold reported. rewrite Hopen, Hf, Hs. reflexivity.
Qed.

(** One step of the loop, seen from a domain [d]. *)
Lemma stats_step_service now_at stats self a :
  snd (stats_step now_at (stats, self) a) = snd (_is_circuit_open self a (now_at a))
  /\ fst (stats_step now_at (stats, self) a)
     = <[a := reported self a (now_at a)]> stats.
Proof.
  unfold stats_step, reported.
  destruct (_is_circuit_open self a (now_at a)) as [is_open self']. done.
Qed.

Lemma after_check_lookup self a now d :
  let self' := snd (_is_circuit_open self a now) in
  failed_callbacks self' !! d
  = (if decide (d = a) then if reset_due self a now then Some 0
                            else failed_callbacks self !! d
     else failed_callbacks self !! d)
  /\ circuit_breaker_state self' !! d
     = (if decide (d = a) then if reset_due self a now then None
                               else circuit_breaker_state self !! d
        else circuit_breaker_state self !! d).
Proof.
  simpl. rewrite is_circuit_open_cases.
  destruct (reset_due self a now); simpl.
  - destruct (decide (d = a)) as [->|Hne].
    + rewrite lookup_insert_eq, lookup_delete_eq. done.
    + rewrite lookup_insert_ne, lookup_delete_ne by done. done.
  - destruct (decide (d = a)); done.
Qed.

Lemma after_check_not_due self a now :
  reset_due (snd (_is_circuit_open self a now)) a now = false.
Proof.
  destruct (reset_due self a now) eqn:Hdue.
  - unfold reset_due at 1.
    destruct (after_check_lookup self a now a) as [_ Hs]. simpl in Hs.
    rewrite Hs, decide_True, Hdue by done. reflexivity.
  - rewrite is_circuit_open_cases, Hdue. simpl. exact Hdue.
Qed.

(** The service after the loop has examined the domains of [l]. *)
Lemma stats_loop_service now_at l :
  forall stats self d,
    let self' := snd (fold_left (stats_step now_at) l (stats, self)) in
    (circuit_breaker_threshold self' = circuit_breaker_threshold self
     /\ circuit_breaker_reset_timeout self' = circuit_breaker_reset_timeout self
     /\ max_retries self' = max_retries self
     /\ retry_delay self' = retry_delay self)
    /\ failed_callbacks self' !! d
       = (if bool_decide (d ∈ l) && reset_due self d (now_at d) then Some 0
          else failed_callbacks self !! d)
    /\ circuit_breaker_state self' !! d
       = (if bool_decide (d ∈ l) && reset_due self d (now_at d) then None
          else circuit_breaker_state self !! d).
Proof.
  induction l as [|a l IH]; intros stats self d; cbn [fold_left].
  - done.
  - destruct (stats_step now_at (stats, self) a) as [stats1 self1] eqn:Hstep.
    pose proof (stats_step_service now_at stats self a) as [Hself1 _].
    rewrite Hstep in Hself1. simpl in Hself1.
    destruct (IH stats1 self1 d) as ((Ht & Hr & Hn & Hd) & Hf & Hs).
    destruct (is_circuit_open_config self a (now_at a)) as (Hn1 & Hd1 & Ht1 & Hr1).
    rewrite <- Hself1 in Hn1, Hd1, Ht1, Hr1.
    cbv zeta. split; [repeat apply conj; etransitivity; eassumption|].
    rewrite Hf, Hs.
    destruct (after_check_lookup self a (now_at a) d) as [Hf1 Hs1].
    simpl in Hf1, Hs1. rewrite <- Hself1 in Hf1, Hs1.
    destruct (decide (d = a)) as [->|Hne].
    + rewrite (bool_decide_eq_true_2 (a ∈ a :: l)) by (apply elem_of_cons; auto).
      assert (reset_due self1 a (now_at a) = false) as ->
          by (rewrite Hself1; apply after_check_not_due).
      rewrite andb_false_r, Hf1, Hs1. simpl.
      destruct (reset_due self a (now_at a)); done.
    + assert (reset_due self1 d (now_at d) = reset_due self d (now_at d)) as ->
          by (apply is_circuit_open_local; congruence).
      rewrite Hf1, Hs1.
      assert (bool_decide (d ∈ a :: l) = bool_decide (d ∈ l)) as ->
          by (apply bool_decide_ext; rewrite elem_of_cons; tauto).
      done.
Qed.

(** The report after the loop has examined the distinct domains of [l]. *)
Lemma stats_loop_report now_at l :
  NoDup l ->
  forall stats self d,
    fst (fold_left (stats_step now_at) l (stats, self)) !! d
    = if bool_decide (d ∈ l) then Some (reported self d (now_at d)) else stats !! d.
Proof.
  induction 1 as [|a l Ha Hl IH]; intros stats self d; cbn [fold_left]; [done|].
  destruct (stats_step now_at (stats, self) a) as [stats1 self1] eqn:Hstep.
  pose proof (stats_step_service now_at stats self a) as [Hself1 Hstats1].
  rewrite Hstep in Hself1, Hstats1. simpl in Hself1, Hstats1.
  rewrite IH.
  destruct (decide (d = a)) as [->|Hne].
  - rewrite (bool_decide_eq_false_2 (a ∈ l)) by done.
    rewrite (bool_decide_eq_true_2 (a ∈ a :: l)) by (apply elem_of_cons; auto).
    rewrite Hstats1. apply lookup_insert_eq.
  - assert (bool_decide (d ∈ a :: l) = bool_decide (d ∈ l)) as ->
        by (apply bool_decide_ext; rewrite elem_of_cons; tauto).
    destruct (bool_decide (d ∈ l)).
    + f_equal.
      destruct (is_circuit_open_other self a d (now_at a)) as [Hf1 Hs1];
        [congruence|].
      rewrite <- Hself1 in Hf1, Hs1.
      destruct (is_circuit_open_config self a (now_at a)) as (_ & _ & Ht1 & Hr1).
      rewrite <- Hself1 in Ht1, Hr1.
      apply is_circuit_open_local; assumption.
    + rewrite Hstats1. apply lookup_insert_ne. done.
Qed.

Lemma tracked_domains_spec self d :
  d ∈ tracked_domains self
  <-> is_Some (failed_callbacks self !! d) \/ is_Some (circuit_breaker_state self !! d).
Proof.
  unfold tracked_domains. rewrite elem_of_elements, elem_of_union, !elem_of_dom.
  reflexivity.
Qed.

Lemma filter_length_Permutation {A} (f : A -> bool) (l1 l2 : list A) :
  l1 ≡ₚ l2 -> List.length (List.filter f l1) = List.length (List.filter f l2).
Proof.
  induction 1 as [|x l1 l2 _ IH|x y l|l1 l2 l3 _ IH1 _ IH2]; simpl.
  - reflexivity.
  - destruct (f x); simpl; congruence.
  - destruct (f x), (f y); reflexivity.
  - congruence.
Qed.

Lemma filter_length_map {A B} (f : B -> bool) (h : A -> B) (l : list A) :
  List.length (List.filter f (List.map h l))
  = List.length (List.filter (fun x => f (h x)) l).
Proof.
  induction l as [|x l IH]; simpl; [reflexivity|].
  destruct (f (h x)); simpl; congruence.
Qed.

Lemma tracked_domains_NoDup self : NoDup (tracked_domains self).
Proof. unfold tracked_domains. apply NoDup_elements. Qed.

Lemma tracked_table_keys self now_at :
  (List.map (fun d => (d, reported self d (now_at d))) (tracked_domains self)).*1
  = tracked_domains self.
Proof.
  induction (tracked_domains self) as [|a l IH]; [reflexivity|].
  cbn [List.map fmap list_fmap fst]. f_equal. exact IH.
Qed.

(** The report is the table of [reported] entries over the tracked domains. *)
Lemma stats_report_table self now_at :
  fst (fold_left (stats_step now_at) (tracked_domains self) (∅, self))
  = list_to_map
      (List.map (fun d => (d, reported self d (now_at d))) (tracked_domains self)).
Proof.
  assert (NoDup (tracked_domains self)) as Hnd
      by apply tracked_domains_NoDup.
  assert (NoDup (List.map (fun d => (d, reported self d (now_at d)))
                          (tracked_domains self)).*1) as Hnd'.
  { rewrite tracked_table_keys. exact Hnd. }
  apply map_eq. intros d.
  rewrite (stats_loop_report now_at _ Hnd).
  destruct (bool_decide_reflect (d ∈ tracked_domains self)) as [Hin|Hout].
  - symmetry. apply elem_of_list_to_map; [exact Hnd'|].
    apply list_elem_of_In, in_map_iff. exists d. split; [reflexivity|].
    apply list_elem_of_In, Hin.
  - rewrite lookup_empty. symmetry. apply not_elem_of_list_to_map.
    intros Hin. apply Hout.
    apply list_elem_of_In, in_map_iff in Hin as ([d' x] & Hd & Hin). simpl in Hd.
    subst d'. apply in_map_iff in Hin as (d' & Heq & Hin).
    inversion Heq; subst. apply list_elem_of_In, Hin.
Qed.

(** C9 as stated fails: when a tracked destination has reached the
    threshold and its last failure is older than the reset timeout, taking
    the snapshot changes both maps. *)
Lemma stats_snapshot_resets_stale_circuit :
  let self := with_circuit {["example.com" := 5]} {["example.com" := 0%Q]}
                CallbackService_init in
  let self' := snd (get_circuit_breaker_stats self (fun _ => 100%Q)) in
  failed_callbacks self !! "example.com" = Some 5
  /\ failed_callbacks self' !! "example.com" = Some 0
  /\ circuit_breaker_state self !! "example.com" = Some 0%Q
  /\ circuit_breaker_state self' !! "example.com" = None
  /\ self' <> self.
Proof.
  vm_compute. repeat split; try reflexivity. discriminate.
Qed.

(** C9, amended.  The snapshot reports, for every tracked destination, its
    state (open or closed), failure count and last failure time as they
    were before the call, together with the number of tracked destinations
    and the number of open circuits.  It leaves both maps unchanged except
    at the destinations whose failure count has reached the threshold and
    whose last failure is older than the reset timeout: there the failure
    count is set to 0 and the last-failure stamp is removed.  When no
    destination is in that situation the service is unchanged. *)
Theorem stats_snapshot self now_at :
  let result := get_circuit_breaker_stats self now_at in
  let stats := fst (fst result) in
  let global := snd (fst result) in
  let self' := snd result in
  (forall d,
      failed_callbacks self' !! d
      = if reset_due self d (now_at d) then Some 0 else failed_callbacks self !! d)
  /\ (forall d,
        circuit_breaker_state self' !! d
        = if reset_due self d (now_at d) then None
          else circuit_breaker_state self !! d)
  /\ ((forall d, reset_due self d (now_at d) = false) -> self' = self)
  /\ (forall d,
        stats !! d
        = if bool_decide (is_Some (failed_callbacks self !! d)
                          \/ is_Some (circuit_breaker_state self !! d))
          then Some (reported self d (now_at d)) else None)
  /\ total_domains_tracked global = List.length (tracked_domains self)
  /\ open_circuits global
     = List.length
         (List.filter (fun d => fst (_is_circuit_open self d (now_at d)))
                      (tracked_domains self)).
Proof.
  unfold get_circuit_breaker_stats.
  destruct (fold_left (stats_step now_at) (tracked_domains self) (∅, self))
    as [stats self'] eqn:Hloop.
  cbn [fst snd].
  pose proof (stats_loop_service now_at (tracked_domains self) ∅ self) as Hsvc.
  rewrite Hloop in Hsvc. cbn [snd] in Hsvc.
  pose proof (stats_report_table self now_at) as Htable.
  rewrite Hloop in Htable. cbn [fst] in Htable.
  assert (NoDup (tracked_domains self)) as Hnd
      by apply tracked_domains_NoDup.
  assert (forall d, reset_due self d (now_at d) = true -> d ∈ tracked_domains self)
    as Hdue_tracked.
  { intros d Hdue. apply tracked_domains_spec. right. unfold reset_due in Hdue.
    destruct (circuit_breaker_state self !! d); [eauto|discriminate]. }
  assert (forall d,
             failed_callbacks self' !! d
             = if reset_due self d (now_at d) then Some 0
               else failed_callbacks self !! d) as Hfailed.
  { intros d. destruct (Hsvc d) as (_ & -> & _).
    destruct (reset_due self d (now_at d)) eqn:Hdue.
    - rewrite bool_decide_eq_true_2 by auto. reflexivity.
    - rewrite andb_false_r. reflexivity. }
  assert (forall d,
             circuit_breaker_state self' !! d
             = if reset_due self d (now_at d) then None
               else circuit_breaker_state self !! d) as Hstate.
  { intros d. destruct (Hsvc d) as (_ & _ & ->).
    destruct (reset_due self d (now_at d)) eqn:Hdue.
    - rewrite bool_decide_eq_true_2 by auto. reflexivity.
    - rewrite andb_false_r. reflexivity. }
  split; [exact Hfailed|]. split; [exact Hstate|]. split; [|split; [|split]].
  - intros Hnone.
    destruct (Hsvc "") as ((Ht & Hr & Hn & Hd) & _).
    assert (failed_callbacks self' = failed_callbacks self) as Hf
        by (apply map_eq; intros d; rewrite Hfailed, Hnone; reflexivity).
    assert (circuit_breaker_state self' = circuit_breaker_state self) as Hs
        by (apply map_eq; intros d; rewrite Hstate, Hnone; reflexivity).
    destruct self, self'. simpl in *. congruence.
  - intros d.
    pose proof (stats_loop_report now_at _ Hnd ∅ self d) as Hrep.
    rewrite Hloop in Hrep. cbn [fst] in Hrep. rewrite Hrep, lookup_empty.
    apply (f_equal (fun b : bool =>
                      if b then Some (reported self d (now_at d)) else None)).
    apply bool_decide_ext, tracked_domains_spec.
  - cbn [total_domains_tracked]. rewrite Htable.
    rewrite <- (length_map (fun d => (d, reported self d (now_at d)))).
    rewrite map_size_list_to_map; [reflexivity|].
    rewrite tracked_table_keys. exact Hnd.
  - cbn [open_circuits]. rewrite Htable.
    rewrite (filter_length_Permutation _ _
               (List.map (fun d => (d, reported self d (now_at d)))
                         (tracked_domains self))).
    + rewrite filter_length_map. cbn [snd reported state].
      f_equal. apply List.filter_ext. intros d.
      destruct (fst (_is_circuit_open self d (now_at d))); reflexivity.
    + apply map_to_list_to_map. rewrite tracked_table_keys. exact Hnd.
Qed.

Lemma stats_snapshot_witness :
  let self := with_circuit {["example.com" := 5]} {["example.com" := 100%Q]}
                CallbackService_init in
  snd (get_circuit_breaker_stats self (fun _ => 130%Q)) = self.
Proof.
  intros self.
  apply (stats_snapshot self (fun _ => 130%Q)).
  intros d. unfold reset_due.
  destruct (circuit_breaker_state self !! d) as [last|] eqn:Hlast; [|reflexivity].
  destruct (decide (d = "example.com")) as [->|Hne].
  - vm_compute in Hlast. inversion Hlast. subst. vm_compute. reflexivity.
  - unfold self in Hlast. cbn [circuit_breaker_state with_circuit] in Hlast.
    rewrite lookup_singleton_ne in Hlast by done. discriminate.
Defined.

(** *** The request ledger *)

(** C10 as stated fails: the call hands back the same value, [None],
    whether the id is absent from the table or present in it. *)
Lemma update_request_status_outcomes_coincide :
  let absent : gmap string RequestRecord := ∅ in
  let present : gmap string RequestRecord := {["r1" := pending_record]} in
  absent !! "r1" = None
  /\ present !! "r1" = Some pending_record
  /\ fst (update_request_status absent "r1" COMPLETED None None None 5) = PyNone
  /\ fst (update_request_status present "r1" COMPLETED None None None 5) = PyNone.
Proof. repeat split; reflexivity. Qed.

(** C10, amended.  [update_request_status] hands back [None] in every
    case, so its caller cannot tell a missing id from a successful update.
    For an id that is not in the table it leaves the table, and so every
    stored record, unchanged; for an id that is present it replaces that
    record by one carrying the new status and leaves the other records
    unchanged. *)
Theorem update_request_status_outcome
    db id new_status new_result new_time new_error now :
  let outcome :=
    update_request_status db id new_status new_result new_time new_error now in
  fst outcome = PyNone
  /\ (db !! id = None -> snd outcome = db)
  /\ (forall record,
        db !! id = Some record ->
        exists record',
          snd outcome = <[id := record']> db
          /\ status record' = new_status
          /\ request_id record' = request_id record
          /\ mode record' = mode record
          /\ created_at record' = created_at record).
Proof.
  unfold update_request_status. split; [|split].
  - destruct (db !! id); reflexivity.
  - intros ->. reflexivity.
  - intros record ->. eexists. split; [reflexivity|].
    destruct (truthy_dict new_result), (truthy_float new_time),
      (existsb _ _), (truthy_str new_error); repeat split.
Qed.

Lemma update_request_status_outcome_witness :
  snd (update_request_status ∅ "r1" COMPLETED None None None 5) = ∅
  /\ exists record',
       snd (update_request_status {["r1" := pending_record]} "r1" PROCESSING
              None None None 5) = <[ "r1" := record' ]> {["r1" := pending_record]}
       /\ status record' = PROCESSING.
Proof.
  split.
  - apply (update_request_status_outcome ∅ "r1" COMPLETED None None None 5).
    reflexivity.
  - destruct (update_request_status_outcome {["r1" := pending_record]} "r1"
                PROCESSING None None None 5) as (_ & _ & Hpresent).
    destruct (Hpresent pending_record) as (record' & Hdb & Hstatus & _);
      [reflexivity|].
    exists record'. split; [exact Hdb|exact Hstatus].
Defined.

(** C7 as stated fails: a transition into a terminal status overwrites a
    completion stamp that is already set.  A record completed at time 10 and
    then marked failed at time 20 ends with the stamp 20. *)
Lemma completed_at_is_overwritten :
  let db : gmap string RequestRecord :=
    {["r1" := set_completed_at (Some 10%Q) (set_status COMPLETED pending_record)]} in
  completed_at <$> db !! "r1" = Some (Some 10%Q)
  /\ completed_at
       <$> snd (update_request_status db "r1" FAILED None None (Some "boom") 20)
           !! "r1"
     = Some (Some 20%Q).
Proof. split; reflexivity. Qed.

Lemma update_request_status_completed_at
    db id record new_status new_result new_time new_error now :
  db !! id = Some record ->
  completed_at
    <$> snd (update_request_status db id new_status new_result new_time new_error now)
        !! id
  = Some (if existsb (RequestStatus_eqb new_status) [COMPLETED; FAILED; CALLBACK_SENT]
          then Some now else completed_at record).
Proof.
  intros Hrec. unfold update_request_status. rewrite Hrec. cbn [snd].
  rewrite lookup_insert_eq. cbn [fmap option_fmap option_map]. f_equal.
  destruct (truthy_dict new_result), (truthy_float new_time),
    (existsb _ _), (truthy_str new_error); reflexivity.
Qed.

(** C7, amended.  [update_request_status] stamps [completed_at] with the
    current time on every transition into completed, failed or
    callback_sent, whether or not a stamp is already set, and leaves it as
    it is on a transition into pending or processing.  In the background
    task of an async request the stamp is written when the work ends, on
    the transition into completed or into failed; the transition into
    callback_sent or callback_failed that follows a completed delivery
    attempt leaves that stamp in place. *)
Theorem completed_at_stamping :
  (forall db id record new_status new_result new_time new_error now,
      db !! id = Some record ->
      In new_status [COMPLETED; FAILED; CALLBACK_SENT] ->
      completed_at
        <$> snd (update_request_status db id new_status new_result new_time
                   new_error now) !! id
      = Some (Some now))
  /\ (forall db id record new_status new_result new_time new_error now,
        db !! id = Some record ->
        In new_status [PENDING; PROCESSING] ->
        completed_at
          <$> snd (update_request_status db id new_status new_result new_time
                     new_error now) !! id
        = Some (completed_at record))
  /\ (forall self env db id record work_result ms exn_text now delivered r,
        db !! id = Some record ->
        send_callback self env (default "" (callback_url record)) now
        = Some (delivered, r) ->
        exists record',
          snd (process_async_callback self env db id (inl (work_result, ms))
                 exn_text now) !! id = Some record'
          /\ status record'
             = (if delivered then CALLBACK_SENT else CALLBACK_FAILED)
          /\ completed_at record' = Some now)
  /\ (forall self env db id record text exn_text now,
        db !! id = Some record ->
        exists record',
          snd (process_async_callback self env db id (inr text) exn_text now)
            !! id = Some record'
          /\ status record' = FAILED
          /\ completed_at record' = Some now).
Proof.
  split; [|split; [|split]].
  - intros db id record new_status new_result new_time new_error now Hrec Hin.
    rewrite (update_request_status_completed_at _ _ _ _ _ _ _ _ Hrec).
    simpl in Hin. destruct Hin as [<-|[<-|[<-|[]]]]; reflexivity.
  - intros db id record new_status new_result new_time new_error now Hrec Hin.
    rewrite (update_request_status_completed_at _ _ _ _ _ _ _ _ Hrec).
    simpl in Hin. destruct Hin as [<-|[<-|[]]]; reflexivity.
  - intros self env db id record work_result ms exn_text now delivered r Hrec Hsend.
    unfold process_async_callback. rewrite Hrec.
    cbn [callback_url set_status set_result set_processing_time_ms
           set_completed_at].
    rewrite Hsend. cbn [snd]. rewrite lookup_insert_eq.
    eexists. split; [reflexivity|]. destruct delivered; split; reflexivity.
  - intros self env db id record text exn_text now Hrec.
    unfold process_async_callback. rewrite Hrec. cbn [snd].
    rewrite lookup_insert_eq. eexists. split; [reflexivity|].
    split; reflexivity.
Qed.

Lemma completed_at_stamping_witness :
  let record := set_completed_at (Some 10%Q) (set_status COMPLETED pending_record) in
  let db : gmap string RequestRecord := {["r1" := record]} in
  completed_at
    <$> snd (update_request_status db "r1" CALLBACK_SENT None None None 30) !! "r1"
  = Some (Some 30%Q)
  /\ completed_at
       <$> snd (update_request_status db "r1" PROCESSING None None None 30) !! "r1"
     = Some (Some 10%Q)
  /\ exists record',
       snd (process_async_callback CallbackService_init everything_fails db "r1"
              (inl ([("sum", "6")], 12%Q)) "" 40) !! "r1" = Some record'
       /\ status record' = CALLBACK_FAILED
       /\ completed_at record' = Some 40%Q.
Proof.
  intros record db.
  destruct completed_at_stamping as (Hterminal & Hother & Hpipeline & _).
  split; [|split].
  - apply (Hterminal db "r1" record); [reflexivity|simpl; auto].
  - apply (Hother db "r1" record); [reflexivity|simpl; auto].
  - apply (Hpipeline CallbackService_init everything_fails db "r1" record
             [("sum", "6")] 12%Q "" 40%Q false
             (snd (default (false, {| svc := CallbackService_init; clock := 0;
                                      trace := [] |})
                     (send_callback CallbackService_init everything_fails "" 40)))).
    + reflexivity.
    + vm_compute. reflexivity.
Defined.

End ServicesSpec.
Module MainSpec.
Import PyStr Main.








(** *** Rate limiting *)

Lemma is_allowed_deque self client_ip now :
  is_allowed self client_ip now
  = (fst (allow_deque (max_requests self) (window_seconds self)
            (deque self client_ip) now),
     with_requests
       (<[client_ip := snd (allow_deque (max_requests self) (window_seconds self)
                              (deque self client_ip) now)]> (requests self))
       self).
Proof.
  unfold is_allowed, allow_deque, deque.
  destruct (max_requests self <=? _); reflexivity.
Qed.

Lemma gate_production limiter req :
  let verdict := allow_deque (max_requests limiter) (window_seconds limiter)
                   (deque limiter (client_ip req)) (arrival req) in
  gate "production" limiter req
  = (answer_of (fst verdict),
     with_requests (<[client_ip req := snd verdict]> (requests limiter)) limiter).
Proof.
  unfold gate, check_rate_limit, client_ip.
  assert (String.eqb "production" "production" = true) as -> by reflexivity.
  cbn [negb].
  rewrite is_allowed_deque.
  destruct (route req);
    destruct (fst (allow_deque _ _ _ _)); reflexivity.
Qed.

Lemma from_spec who req : from who req = true <-> client_ip req = who.
Proof. unfold from. apply String.eqb_eq. Qed.

(** Seen from one client, a run of requests in production is the run of
    that client's own arrivals on its own deque. *)
Lemma gate_all_projection who reqs :
  forall limiter,
    let served := gate_all "production" limiter reqs in
    let mine := run_deque (max_requests limiter) (window_seconds limiter)
                  (deque limiter who)
                  (List.map arrival (List.filter (from who) reqs)) in
    answers_to who (fst served) = List.map answer_of (fst mine)
    /\ deque (snd served) who = snd mine
    /\ max_requests (snd served) = max_requests limiter
    /\ window_seconds (snd served) = window_seconds limiter.
Proof.
  induction reqs as [|req reqs IH]; intros limiter; [done|].
  cbn [gate_all List.filter]. rewrite gate_production.
  set (verdict := allow_deque (max_requests limiter) (window_seconds limiter)
                    (deque limiter (client_ip req)) (arrival req)).
  set (limiter1 := with_requests
                     (<[client_ip req := snd verdict]> (requests limiter)) limiter).
  specialize (IH limiter1). cbv zeta in IH.
  destruct (gate_all "production" limiter1 reqs) as [log limiter2].
  cbn [fst snd] in *.
  destruct IH as (Hlog & Hdeque & Hmax & Hwin).
  change (max_requests limiter1) with (max_requests limiter) in *.
  change (window_seconds limiter1) with (window_seconds limiter) in *.
  split; [|split; [|split]]; try assumption.
  - unfold answers_to in *. cbn [List.filter fst].
    destruct (from who req) eqn:Hfrom.
    + apply from_spec in Hfrom.
      cbn [List.map run_deque snd]. rewrite Hlog.
      assert (deque limiter1 who = snd verdict) as Hq.
      { unfold deque, limiter1. cbn [requests with_requests].
        rewrite Hfrom, lookup_insert_eq. reflexivity. }
      rewrite Hq. subst verdict. rewrite Hfrom.
      destruct (allow_deque _ _ (deque limiter who) (arrival req)) as [ok q1].
      cbn [fst snd].
      destruct (run_deque _ _ q1 _) as [oks q2]. reflexivity.
    + rewrite Hlog.
      assert (deque limiter1 who = deque limiter who) as ->; [|reflexivity].
      unfold deque, limiter1. cbn [requests with_requests].
      rewrite lookup_insert_ne; [reflexivity|].
      intros Heq. apply from_spec in Heq. congruence.
  - rewrite Hdeque.
    destruct (from who req) eqn:Hfrom.
    + apply from_spec in Hfrom.
      cbn [List.map run_deque].
      assert (deque limiter1 who = snd verdict) as Hq.
      { unfold deque, limiter1. cbn [requests with_requests].
        rewrite Hfrom, lookup_insert_eq. reflexivity. }
      rewrite Hq. subst verdict. rewrite Hfrom.
      destruct (allow_deque _ _ (deque limiter who) (arrival req)) as [ok q1].
      cbn [fst snd].
      destruct (run_deque _ _ q1 _) as [oks q2]. reflexivity.
    + assert (deque limiter1 who = deque limiter who) as ->; [|reflexivity].
      unfold deque, limiter1. cbn [requests with_requests].
      rewrite lookup_insert_ne; [reflexivity|].
      intros Heq. apply from_spec in Heq. congruence.
Qed.

Lemma drop_old_stale cutoff q :
  Forall (fun t => (t <= cutoff)%Q) q -> drop_old cutoff q = [].
Proof.
  induction 1 as [|t q Ht _ IH]; [reflexivity|].
  simpl. apply Qle_bool_iff in Ht. rewrite Ht. exact IH.
Qed.

Lemma drop_old_fresh cutoff t q :
  (cutoff < t)%Q -> drop_old cutoff (t :: q) = t :: q.
Proof.
  intros Hlt. simpl.
  destruct (Qle_bool t cutoff) eqn:Hle; [|reflexivity].
  apply Qle_bool_iff in Hle. exfalso. apply (Qlt_not_le _ _ Hlt Hle).
Qed.

Lemma drop_old_length cutoff q :
  (List.length (drop_old cutoff q) <= List.length q)%nat.
Proof.
  induction q as [|t q IH]; simpl; [lia|].
  destruct (Qle_bool t cutoff); simpl; lia.
Qed.

Lemma within_window (t t0 : Q) (w : Z) :
  (t < t0 + inject_Z w)%Q -> (t - inject_Z w < t0)%Q.
Proof. intros H. lra. Qed.

(** Requests that arrive less than a window after [t0], the oldest entry
    of the deque, are all allowed while there is room. *)
Lemma run_deque_room max_requests window_seconds t0 arrivals :
  forall earlier,
    Forall (fun t => (t < t0 + inject_Z window_seconds)%Q) arrivals ->
    Z.of_nat (List.length earlier + List.length arrivals) < max_requests ->
    run_deque max_requests window_seconds (t0 :: earlier) arrivals
    = (replicate (List.length arrivals) true, t0 :: earlier ++ arrivals).
Proof.
  induction arrivals as [|t arrivals IH]; intros earlier Hwin Hroom.
  - simpl. rewrite app_nil_r. reflexivity.
  - inversion Hwin as [|? ? Ht Hwin']; subst.
    cbn [run_deque]. unfold allow_deque.
    rewrite drop_old_fresh by (apply within_window, Ht).
    destruct (Z.leb_spec max_requests (Z.of_nat (List.length (t0 :: earlier))))
      as [Hfull|_].
    { exfalso. simpl in Hfull, Hroom. clear IH. lia. }
    change ((t0 :: earlier) ++ [t]) with (t0 :: (earlier ++ [t])).
    rewrite IH; [| exact Hwin' |].
    + cbn [List.length replicate]. rewrite <- app_assoc. reflexivity.
    + rewrite length_app. simpl in *. clear IH. lia.
Qed.

Lemma run_deque_app max_requests window_seconds q ts1 ts2 :
  run_deque max_requests window_seconds q (ts1 ++ ts2)
  = (fst (run_deque max_requests window_seconds q ts1)
       ++ fst (run_deque max_requests window_seconds
                 (snd (run_deque max_requests window_seconds q ts1)) ts2),
     snd (run_deque max_requests window_seconds
            (snd (run_deque max_requests window_seconds q ts1)) ts2)).
Proof.
  revert q. induction ts1 as [|t ts1 IH]; intros q.
  - simpl. destruct (run_deque _ _ q ts2). reflexivity.
  - cbn [app run_deque].
    destruct (allow_deque max_requests window_seconds q t) as [ok q1].
    rewrite IH.
    destruct (run_deque max_requests window_seconds q1 ts1) as [oks q2].
    cbn [fst snd].
    destruct (run_deque max_requests window_seconds q2 ts2) as [oks' q3].
    reflexivity.
Qed.

(** One more request than the limit, all arriving less than a window
    after the first, on a deque whose entries are all out of the window:
    the last one is refused, and the deque then starts with the first
    arrival. *)
Lemma run_deque_burst (n : nat) window_seconds q0 t0 arrivals :
  Forall (fun t => (t <= t0 - inject_Z window_seconds)%Q) q0 ->
  List.length arrivals = n ->
  Forall (fun t => (t < t0 + inject_Z window_seconds)%Q) arrivals ->
  exists q,
    run_deque (Z.of_nat n) window_seconds q0 (t0 :: arrivals)
    = (replicate n true ++ [false], q)
    /\ ((0 < n)%nat -> exists rest, q = t0 :: rest /\ S (List.length rest) = n).
Proof.
  intros Hstale Hlen Hwin. cbn [run_deque]. unfold allow_deque at 1.
  rewrite (drop_old_stale _ _ Hstale). cbn [List.length app].
  destruct n as [|n].
  - destruct arrivals; [|discriminate]. simpl. eexists. split; [reflexivity|lia].
  - destruct (Z.leb_spec (Z.of_nat (S n)) (Z.of_nat 0)) as [Hle|_]; [lia|].
    destruct (exists_last (l := arrivals)) as (init & final & ->);
      [destruct arrivals; discriminate|].
    rewrite length_app in Hlen. simpl in Hlen.
    apply Forall_app in Hwin as [Hinit Hfinal].
    inversion Hfinal as [|? ? Hfinal' _]; subst.
    rewrite run_deque_app.
    rewrite (run_deque_room _ _ t0 init []) by (try assumption; simpl; lia).
    cbn [fst snd app run_deque]. unfold allow_deque.
    rewrite drop_old_fresh by (apply within_window, Hfinal').
    destruct (Z.leb_spec (Z.of_nat (S n)) (Z.of_nat (List.length (t0 :: init))))
      as [_|Hroom]; [|simpl in Hroom; lia].
    exists (t0 :: init). split.
    + replace (List.length init) with n by lia. reflexivity.
    + intros _. exists init. split; [reflexivity|lia].
Qed.

(** Outside production the check returns before it consults the limiter:
    every request reaches its handler and the limiter is left as it is. *)
Lemma gate_all_outside_production environment limiter reqs :
  environment <> "production" ->
  gate_all environment limiter reqs
  = (List.map (fun req => (req, None)) reqs, limiter).
Proof.
  intros Hmode. induction reqs as [|req reqs IH]; [reflexivity|].
  cbn [gate_all List.map].
  assert (gate environment limiter req = (None, limiter)) as ->.
  { unfold gate, check_rate_limit.
    destruct (String.eqb_spec environment "production") as [->|_]; [congruence|].
    destruct (route req); reflexivity. }
  rewrite IH. reflexivity.
Qed.

(** C6 as stated fails in two ways.  Outside production the check returns
    before it consults the limiter: in development mode 1001 requests from
    one client at the same instant, one more than the limit of 1000, all
    reach their handler.  And in production the request that is refused
    need not be the last of the burst: with a limit of 2 per 60 seconds and
    requests at -59 and -58 still on record, of three requests at 0, 1 and
    2 the first is refused and the third, the one past the limit, reaches
    its handler. *)
Lemma rate_limit_needs_production_and_clear_window :
  (let burst :=
     repeat {| route := sync_endpoint; client := Some "10.0.0.7"; arrival := 0 |}
            1001 in
   max_requests (rate_limiter "development") = 1000
   /\ answers_to "10.0.0.7"
        (fst (gate_all "development" (rate_limiter "development") burst))
      = replicate 1001 None)
  /\ (let hit (t : Q) :=
        {| route := async_endpoint; client := Some "10.0.0.7"; arrival := t |} in
      answers_to "10.0.0.7"
        (fst (gate_all "production" (RateLimiter_init 2 60)
                [hit (-59)%Q; hit (-58)%Q; hit 0%Q; hit 1%Q; hit 2%Q]))
      = [None; None; Some too_many_requests; None; None]).
Proof. vm_compute. repeat split; reflexivity. Qed.

(** C6, amended.  In production mode the rate limit stands in front of
    both endpoints.  When a client, none of whose recorded requests is
    still inside the window, sends one request more than [max_requests],
    each later one arriving less than [window_seconds] after the first,
    then whatever the endpoints addressed and whatever other clients do in
    between, all but the last reach their handler and the last is answered
    with status 429.  The next request of that client that arrives a full
    window or more after the first reaches its handler again.  The
    production limiter allows 50 requests per 60 seconds.  Outside
    production mode every request reaches its handler, whatever the
    limiter holds, and the limiter is left as it is. *)
Theorem production_rate_limit :
  (forall limiter who reqs first more (n : nat),
      max_requests limiter = Z.of_nat n ->
      List.filter (from who) reqs = first :: more ->
      List.length more = n ->
      Forall (fun t => (t <= arrival first - inject_Z (window_seconds limiter))%Q)
             (deque limiter who) ->
      Forall (fun req =>
                (arrival req < arrival first + inject_Z (window_seconds limiter))%Q)
             more ->
      let served := gate_all "production" limiter reqs in
      answers_to who (fst served) = replicate n None ++ [Some too_many_requests]
      /\ status_code too_many_requests = 429
      /\ ((0 < n)%nat ->
          forall others next,
            Forall (fun req => from who req = false) others ->
            from who next = true ->
            (arrival first + inject_Z (window_seconds limiter) <= arrival next)%Q ->
            fst (gate "production"
                   (snd (gate_all "production" (snd served) others)) next) = None)
      /\ max_requests (rate_limiter "production") = 50
      /\ window_seconds (rate_limiter "production") = 60)
  /\ (forall environment limiter reqs,
        environment <> "production" ->
        gate_all environment limiter reqs
        = (List.map (fun req => (req, None)) reqs, limiter)).
Proof.
  split; [|exact gate_all_outside_production].
  intros limiter who reqs first more n Hmax Hmine Hlen Hstale Hwin served.
  destruct (gate_all_projection who reqs limiter) as (Hlog & Hdeque & Hmax' & Hwin').
  fold served in Hlog, Hdeque, Hmax', Hwin'.
  rewrite Hmine, Hmax in Hlog, Hdeque. cbn [List.map] in Hlog, Hdeque.
  destruct (run_deque_burst n (window_seconds limiter) (deque limiter who)
              (arrival first) (List.map arrival more)) as (q & Hrun & Hafter).
  { exact Hstale. }
  { rewrite length_map. exact Hlen. }
  { apply Forall_map. exact Hwin. }
  rewrite Hrun in Hlog, Hdeque. cbn [fst snd] in Hlog, Hdeque.
  split; [|split; [reflexivity|split; [|split; reflexivity]]].
  - rewrite Hlog, List.map_app. cbn [List.map answer_of].
    f_equal. clear. induction n as [|n IH]; [reflexivity|].
    cbn [replicate List.map answer_of]. rewrite IH. reflexivity.
  - intros Hpos others next Hothers Hnext Hlate.
    destruct (Hafter Hpos) as (rest & Hrest & Hsize).
    rewrite Hrest in Hdeque.
    destruct (gate_all_projection who others (snd served)) as (_ & Hdeque2 & Hmax2 & Hwin2).
    assert (List.filter (from who) others = []) as Hnone.
    { clear - Hothers. induction Hothers as [|req others Hreq _ IH]; [reflexivity|].
      simpl. rewrite Hreq. exact IH. }
    rewrite Hnone in Hdeque2. cbn [List.map run_deque snd] in Hdeque2.
    rewrite gate_production. cbn [fst].
    apply from_spec in Hnext. rewrite Hnext, Hdeque2, Hdeque, Hmax2, Hwin2, Hmax', Hwin', Hmax.
    unfold allow_deque. cbn [drop_old].
    assert (Qle_bool (arrival first) (arrival next - inject_Z (window_seconds limiter))
            = true) as ->.
    { apply Qle_bool_iff. lra. }
    pose proof (drop_old_length
                  (arrival next - inject_Z (window_seconds limiter))%Q rest) as Hshort.
    destruct (Z.leb_spec (Z.of_nat n)
                (Z.of_nat (List.length
                   (drop_old (arrival next - inject_Z (window_seconds limiter)) rest))))
      as [Hfull|_]; [lia|].
    reflexivity.
Qed.

Lemma production_rate_limit_witness :
  let hit (c : string) (t : Q) :=
    {| route := async_endpoint; client := Some c; arrival := t |} in
  let reqs := [hit "10.0.0.7" 0%Q; hit "10.0.0.8" 1%Q; hit "10.0.0.7" 20%Q;
               {| route := sync_endpoint; client := Some "10.0.0.7"; arrival := 59 |}] in
  answers_to "10.0.0.7" (fst (gate_all "production" (RateLimiter_init 2 60) reqs))
  = [None; None; Some too_many_requests]
  /\ fst (gate "production"
            (snd (gate_all "production"
                    (snd (gate_all "production" (RateLimiter_init 2 60) reqs))
                    [hit "10.0.0.8" 59%Q]))
            (hit "10.0.0.7" 60%Q)) = None.
Proof.
  intros hit reqs.
  destruct production_rate_limit as [Hproduction _].
  destruct (Hproduction (RateLimiter_init 2 60) "10.0.0.7" reqs
              (hit "10.0.0.7" 0%Q)
              [hit "10.0.0.7" 20%Q;
               {| route := sync_endpoint; client := Some "10.0.0.7"; arrival := 59 |}]
              2%nat) as (Hanswers & _ & Hnext & _).
  - reflexivity.
  - reflexivity.
  - reflexivity.
  - constructor.
  - repeat constructor.
  - split; [exact Hanswers|].
    apply Hnext.
    + lia.
    + repeat constructor.
    + reflexivity.
    + vm_compute. discriminate.
Defined.

End MainSpec.

(** * Further properties of the rate limiter *)

Module MainExtra.
Import PyStr Main MainSpec.

Lemma drop_old_twice c1 c2 q :
  (c1 <= c2)%Q -> drop_old c2 (drop_old c1 q) = drop_old c2 q.
Proof.
  intros Hle. induction q as [|t q IH]; [reflexivity|].
  cbn [drop_old]. destruct (Qle_bool t c1) eqn:Ht1.
  - rewrite IH.
    assert (Qle_bool t c2 = true) as ->; [|reflexivity].
    apply Qle_bool_iff. apply Qle_bool_iff in Ht1. eapply Qle_trans; eassumption.
  - reflexivity.
Qed.

Lemma drop_old_split c q :
  exists removed,
    q = removed ++ drop_old c q /\ Forall (fun x => (x <= c)%Q) removed.
Proof.
  induction q as [|t q (removed & Hq & Hrem)].
  - exists []. split; [reflexivity|constructor].
  - cbn [drop_old]. destruct (Qle_bool t c) eqn:Ht.
    + exists (t :: removed). split.
      * simpl. f_equal. exact Hq.
      * constructor; [apply Qle_bool_iff, Ht|exact Hrem].
    + exists []. split; [reflexivity|constructor].
Qed.

Lemma drop_old_sorted c q :
  StronglySorted Qle q ->
  drop_old c q = List.filter (fun x => negb (Qle_bool x c)) q.
Proof.
  induction 1 as [|t q Hq IH Hall]; [reflexivity|].
  cbn [drop_old List.filter]. destruct (Qle_bool t c) eqn:Ht; cbn [negb].
  - exact IH.
  - f_equal. clear IH Hq. induction Hall as [|x q Hx _ IH]; [reflexivity|].
    cbn [List.filter].
    assert (Qle_bool x c = false) as ->.
    { apply not_true_iff_false. intros Hxc. apply Qle_bool_iff in Hxc.
      apply not_true_iff_false in Ht. apply Ht, Qle_bool_iff.
      eapply Qle_trans; eassumption. }
    cbn [negb]. f_equal. exact IH.
Qed.

Lemma sorted_suffix {A} (R : A -> A -> Prop) l1 l2 :
  StronglySorted R (l1 ++ l2) -> StronglySorted R l2.
Proof.
  induction l1 as [|a l1 IH]; [trivial|].
  intros H. apply StronglySorted_inv in H as [H _]. apply IH, H.
Qed.

Lemma sorted_prefix {A} (R : A -> A -> Prop) l1 l2 :
  StronglySorted R (l1 ++ l2) -> StronglySorted R l1.
Proof.
  induction l1 as [|a l1 IH]; [constructor|].
  intros H. apply StronglySorted_inv in H as [H Hall].
  constructor; [apply IH, H|]. apply Forall_app in Hall. apply Hall.
Qed.

Lemma sorted_without_middle {A} (R : A -> A -> Prop) l1 x l2 :
  StronglySorted R (l1 ++ x :: l2) -> StronglySorted R (l1 ++ l2).
Proof.
  induction l1 as [|a l1 IH]; simpl; intros H.
  - apply StronglySorted_inv in H. apply H.
  - apply StronglySorted_inv in H as [H Hall]. constructor; [apply IH, H|].
    apply Forall_app in Hall as [H1 H2]. apply Forall_app. split; [exact H1|].
    inversion H2; assumption.
Qed.

(** The limiter state: the bound that every stored deque respects. *)
Lemma allow_deque_length m w q now :
  Z.of_nat (List.length q) <= Z.max 0 m ->
  Z.of_nat (List.length (snd (allow_deque m w q now))) <= Z.max 0 m.
Proof.
  intros Hq. unfold allow_deque.
  pose proof (drop_old_length (now - inject_Z w)%Q q) as Hshort.
  destruct (Z.leb_spec m (Z.of_nat (List.length (drop_old (now - inject_Z w) q))))
    as [Hfull|Hroom]; cbn [snd].
  - lia.
  - rewrite length_app. simpl. lia.
Qed.

Lemma gate_keeps_settings environment limiter req :
  max_requests (snd (gate environment limiter req)) = max_requests limiter
  /\ window_seconds (snd (gate environment limiter req)) = window_seconds limiter.
Proof.
  unfold gate, check_rate_limit, is_allowed.
  destruct (route req); destruct (negb _); cbn [snd]; try done;
    destruct (max_requests limiter <=? _); done.
Qed.

Lemma gate_keeps_bound environment limiter req :
  (forall who, Z.of_nat (List.length (deque limiter who))
               <= Z.max 0 (max_requests limiter)) ->
  forall who, Z.of_nat (List.length (deque (snd (gate environment limiter req)) who))
              <= Z.max 0 (max_requests limiter).
Proof.
  intros Hbound who.
  assert (gate environment limiter req
          = check_rate_limit environment limiter (client req) (arrival req)) as ->
      by (unfold gate; destruct (route req); reflexivity).
  unfold check_rate_limit.
  destruct (negb (String.eqb environment "production")); [apply Hbound|].
  rewrite is_allowed_deque.
  set (ip := default "unknown" (client req)).
  set (verdict := allow_deque _ _ _ _).
  assert (forall limiter',
             deque (with_requests (<[ip := snd verdict]> (requests limiter)) limiter') who
             = if decide (who = ip) then snd verdict else deque limiter who) as Hdeque.
  { intros limiter'. unfold deque. cbn [requests with_requests].
    destruct (decide (who = ip)) as [->|Hne].
    - rewrite lookup_insert_eq. reflexivity.
    - rewrite lookup_insert_ne by done. reflexivity. }
  destruct (fst verdict); cbn [snd]; rewrite Hdeque;
    (destruct (decide (who = ip)); [apply allow_deque_length, Hbound|apply Hbound]).
Qed.

Lemma gate_all_keeps_bound environment reqs :
  forall limiter,
    (forall who, Z.of_nat (List.length (deque limiter who))
                 <= Z.max 0 (max_requests limiter)) ->
    max_requests (snd (gate_all environment limiter reqs)) = max_requests limiter
    /\ forall who,
         Z.of_nat (List.length (deque (snd (gate_all environment limiter reqs)) who))
         <= Z.max 0 (max_requests limiter).
Proof.
  induction reqs as [|req reqs IH]; intros limiter Hbound; [split; [reflexivity|exact Hbound]|].
  cbn [gate_all].
  pose proof (gate_keeps_bound environment limiter req Hbound) as Hstep.
  destruct (gate_keeps_settings environment limiter req) as [Hmax _].
  destruct (gate environment limiter req) as [answer limiter1]. cbn [snd] in *.
  rewrite <- Hmax in Hstep. specialize (IH limiter1 Hstep).
  destruct (gate_all environment limiter1 reqs) as [log limiter2]. cbn [snd] in *.
  rewrite Hmax in IH. exact IH.
Qed.

(** X1. Whatever requests a new limiter has served, in whatever mode, no
    client has more than [max_requests] timestamps on record. *)
Theorem recorded_requests_stay_bounded environment max_requests window_seconds reqs who :
  Z.of_nat
    (List.length
       (deque (snd (gate_all environment
                      (RateLimiter_init max_requests window_seconds) reqs)) who))
  <= Z.max 0 max_requests.
Proof.
  apply (gate_all_keeps_bound environment reqs
           (RateLimiter_init max_requests window_seconds)).
  intros who'. unfold deque. cbn [requests RateLimiter_init].
  rewrite lookup_empty. simpl. lia.
Qed.

(** The deque run of one client against the count over its full history. *)
Lemma run_deque_window m w arrivals :
  forall q dropped,
    StronglySorted Qle (q ++ arrivals) ->
    (forall x t, In x dropped -> In t arrivals -> (x <= t - inject_Z w)%Q) ->
    fst (run_deque m w q arrivals) = window_verdicts m w (dropped ++ q) arrivals.
Proof.
  induction arrivals as [|now arrivals IH]; intros q dropped Hsorted Hdropped;
    [reflexivity|].
  cbn [run_deque window_verdicts]. unfold allow_deque.
  destruct (drop_old_split (now - inject_Z w)%Q q) as (removed & Hq & Hremoved).
  assert (List.filter (fun t => negb (Qle_bool t (now - inject_Z w))) (dropped ++ q)
          = drop_old (now - inject_Z w) q) as Hrecent.
  { rewrite List.filter_app,
      <- (drop_old_sorted _ q (sorted_prefix Qle q _ Hsorted)).
    assert (List.filter (fun t => negb (Qle_bool t (now - inject_Z w))) dropped = [])
      as ->; [|reflexivity].
    assert (forall x, In x dropped -> (x <= now - inject_Z w)%Q) as Hall
        by (intros x Hx; apply Hdropped; [exact Hx|left; reflexivity]).
    clear - Hall. induction dropped as [|x dropped IH]; [reflexivity|].
    cbn [List.filter].
    assert (Qle_bool x (now - inject_Z w) = true) as ->
        by (apply Qle_bool_iff, Hall; left; reflexivity).
    cbn [negb]. apply IH. intros y Hy. apply Hall. right. exact Hy. }
  rewrite Hrecent.
  set (kept := drop_old (now - inject_Z w) q) in *.
  assert (StronglySorted Qle (kept ++ now :: arrivals)) as Hkept.
  { rewrite Hq, <- app_assoc in Hsorted. eapply sorted_suffix, Hsorted. }
  assert (forall x t, In x (dropped ++ removed) -> In t arrivals ->
                      (x <= t - inject_Z w)%Q) as Hdropped'.
  { intros x t Hx Ht. apply in_app_or in Hx as [Hx|Hx].
    - apply Hdropped; [exact Hx|right; exact Ht].
    - assert (x <= now - inject_Z w)%Q as Hxnow.
      { rewrite Forall_forall in Hremoved. apply Hremoved, list_elem_of_In, Hx. }
      assert (now <= t)%Q as Hnow.
      { apply sorted_suffix in Hkept. apply StronglySorted_inv in Hkept as [_ Hall].
        rewrite Forall_forall in Hall. apply Hall, list_elem_of_In, Ht. }
      lra. }
  destruct (m <=? Z.of_nat (List.length kept)); cbn [negb fst].
  - specialize (IH kept (dropped ++ removed)).
    destruct (run_deque m w kept arrivals) as [verdicts q'] eqn:Hrun.
    cbn [fst] in *. f_equal.
    rewrite IH; [|eapply sorted_without_middle, Hkept|exact Hdropped'].
    rewrite <- app_assoc, <- Hq. reflexivity.
  - specialize (IH (kept ++ [now]) (dropped ++ removed)).
    destruct (run_deque m w (kept ++ [now]) arrivals) as [verdicts q'] eqn:Hrun.
    cbn [fst] in *. f_equal.
    rewrite IH; [|rewrite <- app_assoc; exact Hkept|exact Hdropped'].
    rewrite <- !app_assoc. rewrite (app_assoc removed), <- Hq. reflexivity.
Qed.

(** X2. In production a new limiter is a sliding window over the whole
    history of a client whose requests arrive in time order: each request
    is let through exactly when fewer than [max_requests] of the requests
    let through before it are less than [window_seconds] old, whatever
    other clients do in between.  Refused requests do not count. *)
Theorem limiter_is_sliding_window max_requests window_seconds reqs who :
  StronglySorted Qle (List.map arrival (List.filter (from who) reqs)) ->
  answers_to who
    (fst (gate_all "production" (RateLimiter_init max_requests window_seconds) reqs))
  = List.map answer_of
      (window_verdicts max_requests window_seconds []
         (List.map arrival (List.filter (from who) reqs))).
Proof.
  intros Hsorted.
  destruct (gate_all_projection who reqs (RateLimiter_init max_requests window_seconds))
    as (Hlog & _).
  rewrite Hlog. f_equal.
  apply (run_deque_window _ _ _ [] []); [exact Hsorted|].
  intros x t [].
Qed.

Lemma limiter_is_sliding_window_witness :
  let hit (c : string) (t : Q) :=
    {| route := sync_endpoint; client := Some c; arrival := t |} in
  answers_to "10.0.0.7"
    (fst (gate_all "production" (RateLimiter_init 2 60)
            [hit "10.0.0.7" 0%Q; hit "10.0.0.7" 1%Q; hit "10.0.0.8" 2%Q;
             hit "10.0.0.7" 59%Q; hit "10.0.0.7" 60%Q]))
  = [None; None; Some too_many_requests; None].
Proof.
  intros hit.
  rewrite (limiter_is_sliding_window 2 60 _ "10.0.0.7").
  - reflexivity.
  - cbn. repeat constructor; discriminate.
Defined.

Lemma get_stats_deque self t who :
  deque (snd (get_stats self t)) who
  = drop_old (t - inject_Z (window_seconds self))%Q (deque self who).
Proof.
  unfold get_stats, deque. cbn [snd requests with_requests].
  rewrite lookup_fmap. destruct (requests self !! who); reflexivity.
Qed.

(** X3. Taking the statistics does not change what the limiter decides
    afterwards: a request that arrives no earlier than the statistics call
    gets the same verdict, and leaves the same timestamps on record for
    its client, as if the statistics had not been taken. *)
Theorem stats_leave_verdicts_alone self t client_ip now :
  (t <= now)%Q ->
  fst (is_allowed (snd (get_stats self t)) client_ip now)
  = fst (is_allowed self client_ip now)
  /\ deque (snd (is_allowed (snd (get_stats self t)) client_ip now)) client_ip
     = deque (snd (is_allowed self client_ip now)) client_ip.
Proof.
  intros Hle. rewrite !is_allowed_deque. cbn [fst snd].
  rewrite get_stats_deque.
  change (max_requests (snd (get_stats self t))) with (max_requests self).
  change (window_seconds (snd (get_stats self t))) with (window_seconds self).
  assert (allow_deque (max_requests self) (window_seconds self)
            (drop_old (t - inject_Z (window_seconds self)) (deque self client_ip)) now
          = allow_deque (max_requests self) (window_seconds self)
              (deque self client_ip) now) as ->.
  { unfold allow_deque. rewrite drop_old_twice by lra. reflexivity. }
  split; [reflexivity|].
  unfold deque. cbn [requests with_requests]. rewrite !lookup_insert_eq. reflexivity.
Qed.

Lemma stats_leave_verdicts_alone_witness :
  let self := with_requests {["10.0.0.7" := [0%Q; 30%Q]]} (RateLimiter_init 2 60) in
  fst (is_allowed (snd (get_stats self 61)) "10.0.0.7" 62) = true.
Proof.
  intros self.
  destruct (stats_leave_verdicts_alone self 61 "10.0.0.7" 62) as [-> _].
  - discriminate.
  - reflexivity.
Defined.

Lemma active_total_bound (m : Z) (entries : list (string * list Q)) :
  Forall (fun entry => Z.of_nat (List.length (snd entry)) <= Z.max 0 m) entries ->
  let active :=
    List.filter (fun entry => negb (Nat.eqb (List.length (snd entry)) 0)) entries in
  Z.of_nat (fold_right (fun entry total => (List.length (snd entry) + total)%nat)
                       0%nat active)
  <= Z.of_nat (List.length active) * m.
Proof.
  induction 1 as [|entry entries Hentry _ IH]; cbn [List.filter]; [simpl; lia|].
  cbv zeta in IH.
  destruct (Nat.eqb_spec (List.length (snd entry)) 0) as [Hempty|Hfull]; cbn [negb].
  - exact IH.
  - cbn [fold_right List.length]. nia.
Qed.

(** X4. Whatever requests a new limiter has served, the statistics it
    then reports satisfy
    [total_recent_requests <= active_ips * max_requests]. *)
Theorem stats_totals_are_bounded environment limit window reqs now :
  let stats :=
    fst (get_stats
           (snd (gate_all environment
                   (RateLimiter_init limit window) reqs)) now) in
  Z.of_nat (total_recent_requests stats) <= Z.of_nat (active_ips stats) * limit.
Proof.
  set (limiter := snd (gate_all environment
                         (RateLimiter_init limit window) reqs)).
  destruct (gate_all_keeps_bound environment reqs
              (RateLimiter_init limit window)) as [Hmax Hbound].
  { intros who'. unfold deque. cbn [requests RateLimiter_init].
    rewrite lookup_empty. simpl. lia. }
  fold limiter in Hmax, Hbound. cbn [max_requests RateLimiter_init] in Hmax, Hbound.
  cbv zeta. unfold get_stats. cbn [fst active_ips total_recent_requests].
  apply active_total_bound.
  apply Forall_forall. intros [who q] Hin. cbn [snd].
  apply elem_of_map_to_list in Hin. rewrite lookup_fmap in Hin.
  destruct (requests limiter !! who) as [q0|] eqn:Hq0; [|discriminate].
  cbn in Hin. inversion Hin; subst q.
  specialize (Hbound who). unfold deque in Hbound. rewrite Hq0 in Hbound.
  cbn [default] in Hbound.
  pose proof (drop_old_length (now - inject_Z (window_seconds limiter))%Q q0).
  unfold id in Hbound. lia.
Qed.

End MainExtra.

(** * Further properties of the callback URL checks *)

Module ValidatorExtra.
Import PyStr Main.

Lemma startswith_split p s :
  startswith p s = true -> exists tail, s = p +:+ tail.
Proof.
  unfold startswith. revert s. induction p as [|a p IH]; intros s H.
  - exists s. reflexivity.
  - destruct s as [|b s]; [discriminate|]. simpl in H.
    destruct (ascii_dec a b) as [->|]; [|discriminate].
    destruct (IH s H) as [tail ->]. exists tail. reflexivity.
Qed.

Lemma startswith_append p s : startswith p (p +:+ s) = true.
Proof.
  unfold startswith. induction p as [|a p IH]; simpl; [destruct s; reflexivity|].
  destruct (ascii_dec a a); [exact IH|congruence].
Qed.

(** The scheme [urlparse] finds in a URL that starts with [http://] or
    [https://]. *)
Lemma urlparse_web_scheme url parsed :
  startswith "http://" url || startswith "https://" url = true ->
  urllib.urlparse url = Some parsed ->
  mem (urllib.scheme parsed) ["http"; "https"] = true.
Proof.
  intros Hstart Hparse. apply orb_true_iff in Hstart as [Hstart|Hstart];
    apply startswith_split in Hstart as [tail ->];
    unfold urllib.urlparse in Hparse.
  - change (lstrip urllib._WHATWG_C0_CONTROL_OR_SPACE ("http://" +:+ tail))
      with ("http://" +:+ tail) in Hparse.
    cbn [fold_left urllib._UNSAFE_URL_BYTES_TO_REMOVE] in Hparse.
    rewrite !ServicesSpec.remove_append in Hparse.
    change (remove "010" (remove "013" (remove "009" "http://")))
      with "http://" in Hparse.
    set (tail' := remove "010" (remove "013" (remove "009" tail))) in Hparse.
    change (urllib.split_scheme ("http://" +:+ tail'))
      with ("http", "//" +:+ tail') in Hparse.
    cbn iota beta in Hparse.
    change ("//" +:+ tail') with (String "/" (String "/" tail')) in Hparse.
    cbn iota beta in Hparse.
    destruct (urllib._splitnetloc tail') as [netloc rest].
    repeat match type of Hparse with
           | (if ?b then _ else _) = _ => destruct b
           end; inversion Hparse; reflexivity.
  - change (lstrip urllib._WHATWG_C0_CONTROL_OR_SPACE ("https://" +:+ tail))
      with ("https://" +:+ tail) in Hparse.
    cbn [fold_left urllib._UNSAFE_URL_BYTES_TO_REMOVE] in Hparse.
    rewrite !ServicesSpec.remove_append in Hparse.
    change (remove "010" (remove "013" (remove "009" "https://")))
      with "https://" in Hparse.
    set (tail' := remove "010" (remove "013" (remove "009" tail))) in Hparse.
    change (urllib.split_scheme ("https://" +:+ tail'))
      with ("https", "//" +:+ tail') in Hparse.
    cbn iota beta in Hparse.
    change ("//" +:+ tail') with (String "/" (String "/" tail')) in Hparse.
    cbn iota beta in Hparse.
    destruct (urllib._splitnetloc tail') as [netloc rest].
    repeat match type of Hparse with
           | (if ?b then _ else _) = _ => destruct b
           end; inversion Hparse; reflexivity.
Qed.

Ltac in_list :=
  repeat split; intros; simpl; repeat (first [left; reflexivity | right]).

(** X5. The URL checks raise one of five error codes, and outside
    production one of three: the code INVALID_SCHEME is never raised,
    because a URL that gets past the prefix test always parses with the
    scheme http or https, and BLOCKED_HOST and PRIVATE_IP_BLOCKED are raised
    in production only. *)
Theorem callback_url_error_codes environment url e :
  validate_callback_url environment url = Some e ->
  In (code e) ["INVALID_CALLBACK_URL"; "MALFORMED_URL"; "BLOCKED_HOST";
               "PRIVATE_IP_BLOCKED"; "METADATA_BLOCKED"]
  /\ (environment <> "production" ->
      In (code e) ["INVALID_CALLBACK_URL"; "MALFORMED_URL"; "METADATA_BLOCKED"]).
Proof.
  unfold validate_callback_url.
  destruct (startswith "http://" url || startswith "https://" url) eqn:Hstart;
    cbn [negb].
  2:{ intros H. inversion H. in_list. }
  destruct (urllib.urlparse url) as [parsed|] eqn:Hparse.
  2:{ intros H. inversion H. in_list. }
  rewrite (urlparse_web_scheme url parsed Hstart Hparse). cbn [negb].
  destruct (urllib.hostname parsed) as [hostname|]; [|discriminate].
  destruct (String.eqb_spec environment "production") as [->|Hdev].
  - repeat match goal with
           | |- context [if ?b then _ else _] => destruct b
           | |- context [match ?x with Some _ => _ | None => _ end] => destruct x
           end;
      intros H; inversion H; (split; [in_list|intros Hne; congruence]).
  - rewrite !andb_false_r.
    assert (match ipaddress.ip_address hostname with
            | Some ip => (ipaddress.is_private ip || ipaddress.is_loopback ip) && false
            | None => false
            end = false) as ->
        by (destruct (ipaddress.ip_address hostname);
            [apply andb_false_r|reflexivity]).
    destruct (mem (lower hostname) metadata_domains); [|discriminate].
    intros H. inversion H. in_list.
Qed.

Lemma callback_url_error_codes_witness :
  In (code {| status_code := 400; code := "METADATA_BLOCKED" |})
     ["INVALID_CALLBACK_URL"; "MALFORMED_URL"; "METADATA_BLOCKED"].
Proof.
  destruct (callback_url_error_codes "development" "http://169.254.169.254/latest/"
              {| status_code := 400; code := "METADATA_BLOCKED" |}) as [_ Hdev].
  - vm_compute. reflexivity.
  - apply Hdev. discriminate.
Defined.

(** X6. Production is the strictest mode: a callback URL that passes the
    checks in production passes them in every other mode. *)
Theorem production_is_the_strictest_mode environment url :
  validate_callback_url "production" url = None ->
  validate_callback_url environment url = None.
Proof.
  destruct (String.eqb_spec environment "production") as [->|Hdev]; [trivial|].
  unfold validate_callback_url.
  destruct (negb (startswith "http://" url || startswith "https://" url));
    [discriminate|].
  destruct (urllib.urlparse url) as [parsed|]; [|discriminate].
  destruct (negb (mem (urllib.scheme parsed) ["http"; "https"])); [discriminate|].
  destruct (urllib.hostname parsed) as [hostname|]; [|reflexivity].
  apply String.eqb_neq in Hdev. rewrite Hdev, !andb_false_r.
  assert (match ipaddress.ip_address hostname with
          | Some ip => (ipaddress.is_private ip || ipaddress.is_loopback ip) && false
          | None => false
          end = false) as ->
      by (destruct (ipaddress.ip_address hostname);
          [apply andb_false_r|reflexivity]).
  repeat match goal with
         | |- context [if ?b then _ else _] => destruct b
         end; try discriminate; reflexivity.
Qed.

Lemma production_is_the_strictest_mode_witness :
  validate_callback_url "staging" "https://example.com/callback" = None.
Proof.
  apply production_is_the_strictest_mode. vm_compute. reflexivity.
Defined.

End ValidatorExtra.

(** * Further properties of the callback dispatcher *)

Module DispatcherExtra.
Import PyStr Services ServicesSpec.

Lemma attempt_loop_service env callback_url domain todo :
  forall attempt r,
    svc (snd (attempt_loop env callback_url domain todo attempt r))
    = if fst (attempt_loop env callback_url domain todo attempt r)
      then _record_callback_success (svc r) domain else svc r.
Proof.
  induction todo as [|todo IH]; intros attempt r; [reflexivity|].
  cbn [attempt_loop]. destruct (is_success (post env attempt)); [reflexivity|].
  rewrite IH. destruct (Z.of_nat attempt <? _); reflexivity.
Qed.

(** The service a delivery leaves behind. *)
Lemma send_callback_service self env callback_url now delivered r :
  send_callback self env callback_url now = Some (delivered, r) ->
  exists domain,
    _get_domain callback_url = Some domain
    /\ svc r
       = let checked := snd (_is_circuit_open self domain now) in
         if fst (_is_circuit_open self domain now) then checked
         else if delivered then _record_callback_success checked domain
              else _record_callback_failure checked domain (clock r).
Proof.
  unfold send_callback.
  destruct (_get_domain callback_url) as [domain|]; [|discriminate].
  intros Hsend. exists domain. split; [reflexivity|].
  destruct (_is_circuit_open self domain now) as [is_open checked].
  cbn [fst snd]. destruct is_open.
  - inversion Hsend. reflexivity.
  - pose proof (attempt_loop_service env callback_url domain (max_retries checked) 0
                  {| svc := checked; clock := now; trace := [] |}) as Hsvc.
    destruct (attempt_loop env callback_url domain (max_retries checked) 0 _)
      as [ok r'].
    cbn [fst snd svc] in Hsvc. destruct ok; inversion Hsend as [[Hd Hr]].
    + rewrite <- Hr. exact Hsvc.
    + cbn [svc clock]. rewrite Hsvc. reflexivity.
Qed.

Lemma consistent_after_check self domain now :
  consistent self -> consistent (snd (_is_circuit_open self domain now)).
Proof.
  intros Hc d. rewrite is_circuit_open_cases.
  destruct (reset_due self domain now); cbn [snd]; [|apply Hc].
  cbn [failed_callbacks circuit_breaker_state with_circuit].
  destruct (decide (d = domain)) as [->|Hne].
  - rewrite lookup_insert_eq, lookup_delete_eq. split.
    + intros count Hcount. inversion Hcount. lia.
    + intros [x Hx]. discriminate.
  - rewrite lookup_insert_ne, lookup_delete_ne by done. apply Hc.
Qed.

Lemma consistent_after_failure self domain now :
  consistent self -> consistent (_record_callback_failure self domain now).
Proof.
  intros Hc d. unfold _record_callback_failure.
  cbn [failed_callbacks circuit_breaker_state with_circuit].
  assert (0 <= default 0 (failed_callbacks self !! domain)) as Hold.
  { destruct (failed_callbacks self !! domain) as [count|] eqn:Hcount; [|simpl; lia].
    apply (Hc domain), Hcount. }
  destruct (decide (d = domain)) as [->|Hne].
  - rewrite !lookup_insert_eq. split.
    + intros count Hcount. inversion Hcount. lia.
    + intros _. eexists. split; [reflexivity|lia].
  - rewrite !lookup_insert_ne by done. apply Hc.
Qed.

Lemma consistent_after_success self domain :
  consistent self -> consistent (_record_callback_success self domain).
Proof.
  intros Hc d. unfold _record_callback_success.
  cbn [failed_callbacks circuit_breaker_state with_circuit].
  destruct (decide (d = domain)) as [->|Hne].
  - rewrite !lookup_delete_eq. split; [discriminate|]. intros [x Hx]. discriminate.
  - rewrite !lookup_delete_ne by done. apply Hc.
Qed.

(** X9. The two circuit maps stay consistent: in a new service, and after
    any delivery and any statistics snapshot made on a consistent service,
    every recorded failure count is at least 0 and every destination that
    carries a last-failure stamp has a failure count of at least 1 (so the
    count the circuit check reads is never the default). *)
Theorem circuit_maps_stay_consistent :
  consistent CallbackService_init
  /\ (forall self env callback_url now delivered r,
        consistent self ->
        send_callback self env callback_url now = Some (delivered, r) ->
        consistent (svc r))
  /\ (forall self now_at,
        consistent self ->
        consistent (snd (get_circuit_breaker_stats self now_at))).
Proof.
  split; [|split].
  - intros d. cbn [failed_callbacks circuit_breaker_state CallbackService_init].
    rewrite !lookup_empty. split; [discriminate|]. intros [x Hx]. discriminate.
  - intros self env callback_url now delivered r Hc Hsend.
    destruct (send_callback_service _ _ _ _ _ _ Hsend) as (domain & _ & ->).
    cbv zeta. pose proof (consistent_after_check self domain now Hc) as Hchecked.
    destruct (fst (_is_circuit_open self domain now)); [exact Hchecked|].
    destruct delivered;
      [apply consistent_after_success|apply consistent_after_failure]; exact Hchecked.
  - intros self now_at Hc d. unfold get_circuit_breaker_stats.
    pose proof (stats_loop_service now_at (tracked_domains self) ∅ self d)
      as (_ & Hf & Hs).
    destruct (fold_left (stats_step now_at) (tracked_domains self) (∅, self))
      as [stats self']. cbn [fst snd] in *.
    rewrite Hf, Hs.
    destruct (bool_decide (d ∈ tracked_domains self) && reset_due self d (now_at d)).
    + split.
      * intros count Hcount. inversion Hcount. lia.
      * intros [x Hx]. discriminate.
    + apply Hc.
Qed.

Lemma circuit_maps_stay_consistent_witness :
  match send_callback CallbackService_init everything_fails
          "https://example.com/callback" 0 with
  | Some (_, r) => consistent (svc r)
  | None => False
  end.
Proof.
  destruct circuit_maps_stay_consistent as (Hinit & Hsend_keeps & _).
  destruct (send_callback CallbackService_init everything_fails
              "https://example.com/callback" 0) as [[delivered r]|] eqn:Hsend.
  - exact (Hsend_keeps _ _ _ _ _ _ Hinit Hsend).
  - vm_compute in Hsend. discriminate Hsend.
Defined.

Lemma first_success_or_none (f : nat -> bool) (n : nat) :
  (forall k, (k < n)%nat -> f k = false)
  \/ exists k, (k < n)%nat /\ f k = true /\ forall j, (j < k)%nat -> f j = false.
Proof.
  induction n as [|n [Hnone|(k & Hk & Hok & Hbefore)]].
  - left. intros k Hk. exfalso. clear - Hk. lia.
  - destruct (f n) eqn:Hn.
    + right. exists n. split; [lia|]. split; [exact Hn|exact Hnone].
    + left. intros k Hk. destruct (decide (k = n)) as [->|Hne]; [exact Hn|].
      apply Hnone. clear - Hk Hne. lia.
  - right. exists k. split; [lia|]. split; [exact Hok|exact Hbefore].
Qed.

Lemma sleeps_failed_attempts self env callback_url (k : nat) :
  List.length
    (List.filter is_sleep
       (flat_map (failed_attempt_events self env callback_url) (seq 0 k)))
  = Nat.min k (max_retries self - 1).
Proof.
  induction k as [|k IH]; [reflexivity|].
  rewrite seq_S, flat_map_app, List.filter_app, length_app, IH. cbn [plus flat_map].
  unfold failed_attempt_events.
  destruct (Z.ltb_spec (Z.of_nat k) (Z.of_nat (max_retries self) - 1));
    cbn [app List.filter is_sleep List.length]; lia.
Qed.

Lemma last_failed_attempts self env callback_url (n : nat) :
  max_retries self = n ->
  last (flat_map (failed_attempt_events self env callback_url) (seq 0 n))
  = match n with O => None | S k => Some (Post callback_url k) end.
Proof.
  intros Hn. destruct n as [|k]; [reflexivity|].
  rewrite seq_S, flat_map_app. cbn [plus flat_map]. unfold failed_attempt_events at 2.
  destruct (Z.ltb_spec (Z.of_nat k) (Z.of_nat (max_retries self) - 1)); [lia|].
  rewrite app_nil_r. apply last_snoc.
Qed.

(** The attempts of a loop that runs out are spaced POSTs. *)
Lemma failed_attempts_spaced self env callback_url (todo : nat) :
  forall attempt,
    (attempt + todo = max_retries self)%nat ->
    flat_map (failed_attempt_events self env callback_url) (seq attempt todo)
    = spaced_posts callback_url (backoff self env) attempt todo.
Proof.
  induction todo as [|todo IH]; intros attempt Hsum; [reflexivity|].
  cbn [seq flat_map spaced_posts]. unfold failed_attempt_events at 1.
  destruct todo as [|todo].
  - destruct (Z.ltb_spec (Z.of_nat attempt) (Z.of_nat (max_retries self) - 1));
      [lia|]. reflexivity.
  - destruct (Z.ltb_spec (Z.of_nat attempt) (Z.of_nat (max_retries self) - 1));
      [|lia].
    cbn [app]. rewrite IH by lia. reflexivity.
Qed.

(** So are the attempts of a loop that ends with a successful POST. *)
Lemma first_success_spaced self env callback_url (failed : nat) :
  forall attempt,
    (attempt + failed < max_retries self)%nat ->
    flat_map (failed_attempt_events self env callback_url) (seq attempt failed)
    ++ [Post callback_url (attempt + failed)]
    = spaced_posts callback_url (backoff self env) attempt (S failed).
Proof.
  induction failed as [|failed IH]; intros attempt Hsum.
  - cbn. rewrite Nat.add_0_r. reflexivity.
  - cbn [seq flat_map]. unfold failed_attempt_events at 1.
    destruct (Z.ltb_spec (Z.of_nat attempt) (Z.of_nat (max_retries self) - 1));
      [|lia].
    cbn [app]. replace (attempt + S failed)%nat with (S attempt + failed)%nat by lia.
    rewrite IH by lia. reflexivity.
Qed.

(** X10. Whatever the destination does, the network activity of a delivery
    is a run of at most [max_retries] POSTs, all to the callback URL and
    numbered from 0 without gaps, with exactly one sleep between any two
    consecutive POSTs (after POST [k], of [retry_delay * 2^k] plus the
    jitter drawn then) and nothing before the first POST or after the last
    one.  A delivery returns true only after at least one POST, and then
    the last POST is the first one answered 200; a delivery that returns
    false has made no POST at all or [max_retries] of them. *)
Theorem delivery_trace_shape self env callback_url now delivered r :
  send_callback self env callback_url now = Some (delivered, r) ->
  exists m : nat,
    (m <= max_retries self)%nat
    /\ trace r = spaced_posts callback_url (backoff self env) 0 m
    /\ posts (trace r) = List.map (Post callback_url) (seq 0 m)
    /\ List.length (List.filter is_sleep (trace r)) = (m - 1)%nat
    /\ last (trace r) = match m with O => None | S k => Some (Post callback_url k) end
    /\ (delivered = true ->
        (1 <= m)%nat
        /\ is_success (post env (m - 1)) = true
        /\ forall j, (j < m - 1)%nat -> is_success (post env j) = false)
    /\ (delivered = false -> m = 0%nat \/ m = max_retries self).
Proof.
  unfold send_callback.
  destruct (_get_domain callback_url) as [domain|]; [|discriminate].
  destruct (is_circuit_open_config self domain now) as (Hn & Hdelay & _).
  destruct (_is_circuit_open self domain now) as [is_open checked].
  cbn [snd] in Hn, Hdelay.
  assert (backoff checked env = backoff self env) as Hbackoff
      by (unfold backoff; rewrite Hdelay; reflexivity).
  destruct is_open.
  { intros H. inversion H. exists 0%nat. cbn.
    split; [lia|]. do 4 (split; [reflexivity|]).
    split; [discriminate|]. intros _. left. reflexivity. }
  set (r0 := {| svc := checked; clock := now; trace := [] |}).
  destruct (first_success_or_none (fun k => is_success (post env k))
              (max_retries checked)) as [Hnone|(k & Hk & Hok & Hbefore)].
  - destruct (attempt_loop_all_fail env callback_url domain (max_retries checked) 0 r0)
      as (r' & Hrun & Hsvc & Htr).
    { intros j Hj. apply Hnone. lia. }
    rewrite Hrun. intros H. inversion H; subst. subst r0. cbn [trace svc app] in *.
    exists (max_retries checked). rewrite Htr.
    split; [lia|].
    split; [rewrite failed_attempts_spaced, Hbackoff by reflexivity; reflexivity|].
    split; [apply posts_failed_attempts|].
    split; [rewrite sleeps_failed_attempts; lia|].
    split; [apply last_failed_attempts; reflexivity|].
    split; [discriminate|]. intros _. right. exact Hn.
  - destruct (attempt_loop_first_success env callback_url domain
                (max_retries checked) 0 r0 k) as (r' & Hrun & Hsvc & Htr).
    { lia. } { exact Hok. } { intros j Hj. apply Hbefore. lia. }
    rewrite Hrun. intros H. inversion H; subst. subst r0. cbn [trace svc app] in *.
    rewrite Nat.sub_0_r in Htr. exists (S k). rewrite Htr.
    split; [lia|]. split; [|split; [|split; [|split; [|split]]]].
    + rewrite <- Hbackoff.
      apply (first_success_spaced checked env callback_url k 0%nat). exact Hk.
    + rewrite seq_S, List.map_app. unfold posts. rewrite List.filter_app.
      fold (posts (flat_map (failed_attempt_events checked env callback_url)
                     (seq 0 k))).
      rewrite posts_failed_attempts. reflexivity.
    + rewrite List.filter_app, length_app, sleeps_failed_attempts. simpl. lia.
    + apply last_snoc.
    + intros _. cbn [Nat.sub]. rewrite Nat.sub_0_r.
      split; [lia|]. split; [exact Hok|exact Hbefore].
    + discriminate.
Qed.

Lemma delivery_trace_shape_witness :
  exists (m : nat) r,
    send_callback CallbackService_init everything_fails
      "https://example.com/callback" 0 = Some (false, r)
    /\ (m <= 3)%nat
    /\ trace r
       = spaced_posts "https://example.com/callback"
           (backoff CallbackService_init everything_fails) 0 m.
Proof.
  destruct (send_callback CallbackService_init everything_fails
              "https://example.com/callback" 0) as [[delivered r]|] eqn:Hsend.
  - destruct (delivery_trace_shape _ _ _ _ _ _ Hsend) as (m & Hm & Htrace & _).
    exists m, r. split; [|split; [exact Hm|exact Htrace]].
    destruct delivered; [|reflexivity].
    vm_compute in Hsend. discriminate Hsend.
  - vm_compute in Hsend. discriminate Hsend.
Defined.

(** X11. A delivery touches one destination only: the failure count and
    the last-failure stamp of every other destination, and the four
    settings of the service, come out as they went in. *)
Theorem delivery_leaves_other_destinations self env callback_url domain now delivered r :
  _get_domain callback_url = Some domain ->
  send_callback self env callback_url now = Some (delivered, r) ->
  (forall other,
      other <> domain ->
      failed_callbacks (svc r) !! other = failed_callbacks self !! other
      /\ circuit_breaker_state (svc r) !! other = circuit_breaker_state self !! other)
  /\ max_retries (svc r) = max_retries self
  /\ retry_delay (svc r) = retry_delay self
  /\ circuit_breaker_threshold (svc r) = circuit_breaker_threshold self
  /\ circuit_breaker_reset_timeout (svc r) = circuit_breaker_reset_timeout self.
Proof.
  intros Hdom Hsend.
  destruct (send_callback_service _ _ _ _ _ _ Hsend) as (domain' & Hdom' & Hsvc).
  rewrite Hdom in Hdom'. inversion Hdom'; subst domain'. cbv zeta in Hsvc.
  destruct (is_circuit_open_config self domain now) as (Hn & Hd & Ht & Hr).
  cbv zeta in Hn, Hd, Ht, Hr.
  split.
  - intros other Hne.
    destruct (is_circuit_open_other self domain other now) as [Hf Hs]; [congruence|].
    rewrite Hsvc. destruct (fst (_is_circuit_open self domain now)); [done|].
    destruct delivered.
    + unfold _record_callback_success.
      cbn [failed_callbacks circuit_breaker_state with_circuit].
      rewrite !lookup_delete_ne by congruence. done.
    + destruct (record_failure_other (snd (_is_circuit_open self domain now))
                  domain other (clock r)) as [-> ->]; [congruence|]. done.
  - rewrite Hsvc.
    destruct (fst (_is_circuit_open self domain now)); [done|].
    destruct delivered; done.
Qed.

Lemma delivery_leaves_other_destinations_witness :
  let self := with_circuit {["other.org" := 2]} {["other.org" := 5%Q]}
                CallbackService_init in
  match send_callback self everything_fails "https://example.com/callback" 10 with
  | Some (_, r) => failed_callbacks (svc r) !! "other.org" = Some 2
  | None => False
  end.
Proof.
  intros self.
  destruct (send_callback self everything_fails "https://example.com/callback" 10)
    as [[delivered r]|] eqn:Hsend.
  - destruct (delivery_leaves_other_destinations self everything_fails
                "https://example.com/callback" "example.com" 10 delivered r)
      as [Hother _]; [vm_compute; reflexivity|exact Hsend|].
    destruct (Hother "other.org") as [-> _]; [discriminate|reflexivity].
  - vm_compute in Hsend. discriminate Hsend.
Defined.

Lemma is_circuit_open_below self domain now :
  default 0 (failed_callbacks self !! domain) < circuit_breaker_threshold self ->
  _is_circuit_open self domain now = (false, self).
Proof.
  intros Hlow. unfold _is_circuit_open.
  destruct (circuit_breaker_state self !! domain); [|reflexivity].
  apply Z.ltb_lt in Hlow. rewrite Hlow. reflexivity.
Qed.

(** Failing deliveries made while the count is below the threshold. *)
Lemma failing_deliveries_count callback_url domain calls :
  _get_domain callback_url = Some domain ->
  forall self,
    0 <= default 0 (failed_callbacks self !! domain) ->
    default 0 (failed_callbacks self !! domain) + Z.of_nat (List.length calls)
    <= circuit_breaker_threshold self ->
    (forall env now k, In (env, now) calls -> (k < max_retries self)%nat ->
                       post env k <> HttpResponse 200) ->
    exists self',
      deliver_all self callback_url calls
      = Some (replicate (List.length calls) false, self')
      /\ max_retries self' = max_retries self
      /\ circuit_breaker_threshold self' = circuit_breaker_threshold self
      /\ circuit_breaker_reset_timeout self' = circuit_breaker_reset_timeout self
      /\ default 0 (failed_callbacks self' !! domain)
         = default 0 (failed_callbacks self !! domain) + Z.of_nat (List.length calls)
      /\ (calls <> [] ->
          is_Some (failed_callbacks self' !! domain)
          /\ is_Some (circuit_breaker_state self' !! domain)).
Proof.
  intros Hdom. induction calls as [|[env now] calls IH]; intros self Hpos Hroom Hfail.
  - exists self. split; [reflexivity|]. do 3 (split; [reflexivity|]).
    split; [cbn [List.length]; lia|]. intros Hne. congruence.
  - cbn [deliver_all].
    assert (_is_circuit_open self domain now = (false, self)) as Hcheck.
    { apply is_circuit_open_below. cbn [List.length] in Hroom. clear IH. lia. }
    destruct (send_callback_all_fail self env callback_url domain now Hdom)
      as (r & Hsend & _ & Hsvc).
    { rewrite Hcheck. reflexivity. }
    { intros k Hk. eapply Hfail; [left; reflexivity|exact Hk]. }
    rewrite Hcheck in Hsvc. cbn [snd] in Hsvc. rewrite Hsend.
    assert (failed_callbacks (svc r) !! domain
            = Some (default 0 (failed_callbacks self !! domain) + 1)) as Hcount
        by (rewrite Hsvc; apply record_failure_count).
    assert (circuit_breaker_state (svc r) !! domain = Some (clock r)) as Hstamp
        by (rewrite Hsvc; apply record_failure_stamp).
    destruct (IH (svc r)) as (self' & Hrun & Hn & Ht & Hr & Hsum & Hsome).
    { rewrite Hcount. simpl. lia. }
    { rewrite Hcount, Hsvc. cbn [List.length] in Hroom. simpl. clear IH. lia. }
    { intros env' now' k Hin Hk. eapply Hfail; [right; exact Hin|].
      rewrite Hsvc in Hk. exact Hk. }
    exists self'. rewrite Hrun.
    rewrite Hsvc in Hn, Ht, Hr. cbn in Hn, Ht, Hr.
    split; [reflexivity|]. split; [exact Hn|]. split; [exact Ht|]. split; [exact Hr|].
    split.
    + rewrite Hsum, Hcount. cbn [List.length default]. unfold id. clear IH. lia.
    + intros _. destruct calls as [|call calls].
      * cbn in Hrun. inversion Hrun; subst self'. rewrite Hcount, Hstamp. eauto.
      * apply Hsome. discriminate.
Qed.

(** X12. The circuit opens after [circuit_breaker_threshold] failed
    deliveries in a row: starting from a destination with no failure on
    record, that many deliveries in which no attempt is answered 200 all
    run their attempts and return false, and they leave the failure count
    at the threshold with a last-failure stamp; every delivery started
    within the reset timeout of that stamp is then cut short, with no
    network attempt. *)
Theorem circuit_opens_after_threshold_failures self callback_url domain calls :
  _get_domain callback_url = Some domain ->
  failed_callbacks self !! domain = None ->
  Z.of_nat (List.length calls) = circuit_breaker_threshold self ->
  calls <> [] ->
  (forall env now k, In (env, now) calls -> (k < max_retries self)%nat ->
                     post env k <> HttpResponse 200) ->
  exists self' last_failure,
    deliver_all self callback_url calls
    = Some (replicate (List.length calls) false, self')
    /\ failed_callbacks self' !! domain = Some (circuit_breaker_threshold self)
    /\ circuit_breaker_state self' !! domain = Some last_failure
    /\ forall env now,
         (now - last_failure <= circuit_breaker_reset_timeout self)%Q ->
         send_callback self' env callback_url now
         = Some (false, {| svc := self'; clock := now; trace := [] |}).
Proof.
  intros Hdom Hfresh Hlen Hcalls Hfail.
  destruct (failing_deliveries_count callback_url domain calls Hdom self)
    as (self' & Hrun & Hn & Ht & Hr & Hsum & Hsome).
  { rewrite Hfresh. simpl. lia. }
  { rewrite Hfresh. simpl. lia. }
  { exact Hfail. }
  destruct (Hsome Hcalls) as [[count Hcount] [last_failure Hstamp]].
  rewrite Hcount, Hfresh in Hsum. cbn in Hsum.
  exists self', last_failure. split; [exact Hrun|].
  split; [rewrite Hcount; f_equal; lia|]. split; [exact Hstamp|].
  intros env now Hrecent. unfold send_callback. rewrite Hdom.
  rewrite (is_circuit_open_true self' domain now last_failure Hstamp).
  - reflexivity.
  - rewrite Hcount, Ht. simpl. lia.
  - rewrite Hr. exact Hrecent.
Qed.

Lemma circuit_opens_after_threshold_failures_witness :
  exists self' last_failure,
    deliver_all CallbackService_init "https://example.com/callback"
      (List.map (fun t => (everything_fails, inject_Z t)) [0; 10; 20; 30; 40])
    = Some ([false; false; false; false; false], self')
    /\ circuit_breaker_state self' !! "example.com" = Some last_failure
    /\ send_callback self' everything_fails "https://example.com/callback"
         last_failure
       = Some (false, {| svc := self'; clock := last_failure; trace := [] |}).
Proof.
  destruct (circuit_opens_after_threshold_failures CallbackService_init
              "https://example.com/callback" "example.com"
              (List.map (fun t => (everything_fails, inject_Z t)) [0; 10; 20; 30; 40]))
    as (self' & last_failure & Hrun & _ & Hstamp & Hopen).
  - vm_compute. reflexivity.
  - reflexivity.
  - reflexivity.
  - discriminate.
  - intros env now k Hin _.
    simpl in Hin.
    repeat (destruct Hin as [Hin|Hin]; [inversion Hin; subst; simpl; discriminate|]).
    destruct Hin.
  - exists self', last_failure. split; [exact Hrun|]. split; [exact Hstamp|].
    apply Hopen. cbn [circuit_breaker_reset_timeout CallbackService_init]. lra.
Defined.

End DispatcherExtra.

(** * Further properties of the request ledger *)

Module LedgerExtra.
Import PyStr Services ServicesSpec.

(** X13. A record that has just been created reads back as a pending
    record with the given mode, input and callback URL, no result, no
    completion stamp, no error and an attempt count of 0; the other
    records read back as before.  Creating under an id that is taken
    raises and stores nothing, and an id that was never stored reads back
    as absent. *)
Theorem created_record_reads_back db mode input_data callback_url new_id now :
  (db !! new_id = None ->
   exists db',
     create_request_record db mode input_data callback_url new_id now
     = Some (new_id, db')
     /\ get_request_details db' new_id
        = Some {| request_id := new_id; mode := mode; status := PENDING;
                  input_data := input_data; result := None;
                  processing_time_ms := None; callback_url := callback_url;
                  callback_attempts := 0; created_at := now;
                  completed_at := None; error_message := None |}
     /\ forall other, other <> new_id ->
          get_request_details db' other = get_request_details db other)
  /\ (is_Some (db !! new_id) ->
      create_request_record db mode input_data callback_url new_id now = None)
  /\ (db !! new_id = None -> get_request_details db new_id = None).
Proof.
  unfold create_request_record, get_request_details. split; [|split].
  - intros ->. eexists. split; [reflexivity|].
    rewrite lookup_insert_eq. split; [reflexivity|].
    intros other Hne. rewrite lookup_insert_ne by done. reflexivity.
  - intros [record ->]. reflexivity.
  - intros ->. reflexivity.
Qed.

Lemma created_record_reads_back_witness :
  exists db',
    create_request_record ∅ ASYNC [("numbers", "[1, 2, 3]")]
      (Some "https://example.com/callback") "r1" 7 = Some ("r1", db')
    /\ status <$> get_request_details db' "r1" = Some PENDING.
Proof.
  destruct (created_record_reads_back ∅ ASYNC [("numbers", "[1, 2, 3]")]
              (Some "https://example.com/callback") "r1" 7) as (Hnew & _ & _).
  destruct Hnew as (db' & Hcreate & Hread & _); [reflexivity|].
  exists db'. split; [exact Hcreate|]. rewrite Hread. reflexivity.
Defined.

(** The record an update leaves under the id it was given. *)
Lemma update_request_status_record
    db id record new_status new_result new_time new_error now :
  db !! id = Some record ->
  exists record',
    snd (update_request_status db id new_status new_result new_time new_error now)
    = <[id := record']> db
    /\ status record' = new_status
    /\ request_id record' = request_id record
    /\ mode record' = mode record
    /\ input_data record' = input_data record
    /\ callback_url record' = callback_url record
    /\ callback_attempts record' = callback_attempts record
    /\ created_at record' = created_at record
    /\ result record'
       = (if truthy_dict new_result then new_result else result record)
    /\ processing_time_ms record'
       = (if truthy_float new_time then new_time else processing_time_ms record)
    /\ error_message record'
       = (if truthy_str new_error then new_error else error_message record)
    /\ completed_at record'
       = (if existsb (RequestStatus_eqb new_status) [COMPLETED; FAILED; CALLBACK_SENT]
          then Some now else completed_at record).
Proof.
  intros Hrec. unfold update_request_status. rewrite Hrec. cbn [snd].
  eexists. split; [reflexivity|].
  destruct (truthy_dict new_result), (truthy_float new_time),
    (existsb _ _), (truthy_str new_error); repeat split.
Qed.

(** X14. A status update never clears what a record already holds: a
    stored result, processing time, error message or completion stamp is
    still there afterwards (replaced at most by a new value), so an error
    message written by a failed run survives a later update to completed;
    and the update never touches the id, mode, input, callback URL,
    attempt count or creation time. *)
Theorem update_never_clears db id record new_status new_result new_time new_error now :
  db !! id = Some record ->
  exists record',
    snd (update_request_status db id new_status new_result new_time new_error now)
      !! id = Some record'
    /\ (is_Some (result record) -> is_Some (result record'))
    /\ (is_Some (processing_time_ms record) -> is_Some (processing_time_ms record'))
    /\ (is_Some (error_message record) -> is_Some (error_message record'))
    /\ (is_Some (completed_at record) -> is_Some (completed_at record'))
    /\ (new_error = None -> error_message record' = error_message record)
    /\ request_id record' = request_id record
    /\ mode record' = mode record
    /\ input_data record' = input_data record
    /\ callback_url record' = callback_url record
    /\ callback_attempts record' = callback_attempts record
    /\ created_at record' = created_at record.
Proof.
  intros Hrec.
  destruct (update_request_status_record db id record new_status new_result
              new_time new_error now Hrec)
    as (record' & Hdb & _ & Hid & Hmode & Hin & Hurl & Hatt & Hcre
        & Hres & Htime & Herr & Hdone).
  exists record'. rewrite Hdb, lookup_insert_eq.
  split; [reflexivity|].
  rewrite Hres, Htime, Herr, Hdone.
  repeat split; try assumption.
  - destruct new_result as [[|]|]; cbn; eauto.
  - destruct new_time as [q|]; cbn; [destruct (Qeq_bool q 0); cbn; eauto|eauto].
  - destruct new_error as [s|]; cbn; [destruct (String.eqb s ""); cbn; eauto|eauto].
  - destruct (existsb _ _); eauto.
  - intros ->. reflexivity.
Qed.

Lemma update_never_clears_witness :
  let failed :=
    set_error_message (Some "boom") (set_status FAILED pending_record) in
  exists record',
    snd (update_request_status {["r1" := failed]} "r1" COMPLETED
           (Some [("sum", "6")]) (Some 12%Q) None 9) !! "r1" = Some record'
    /\ error_message record' = Some "boom".
Proof.
  intros failed.
  destruct (update_never_clears {["r1" := failed]} "r1" failed COMPLETED
              (Some [("sum", "6")]) (Some 12%Q) None 9)
    as (record' & Hread & _ & _ & _ & _ & Hsame & _); [reflexivity|].
  exists record'. split; [exact Hread|]. rewrite Hsame; reflexivity.
Defined.



End LedgerExtra.

(** * The background task of an async request *)

Module BackgroundExtra.
Import PyStr Services ServicesSpec.






End BackgroundExtra.

(** * The handlers *)

Module ApiExtra.
Import PyStr Services.









End ApiExtra.

(** * Input validation *)

Module WorkProcessorExtra.
Import PyStr WorkProcessor.

(** Induction over a value and the values nested in it. *)
Lemma pyobj_nested_ind (P : pyobj -> Prop) :
  (forall text, P (PyScalar text)) ->
  (forall items, Forall P items -> P (PyList items)) ->
  (forall entries, Forall (fun entry => P (snd entry)) entries ->
                   P (PyDictObj entries)) ->
  forall obj, P obj.
Proof.
  intros Hscalar Hlist Hdict. fix IH 1. intros [text|items|entries].
  - apply Hscalar.
  - apply Hlist. induction items as [|item items IHitems]; constructor;
      [apply IH|exact IHitems].
  - apply Hdict. induction entries as [|[key v] entries IHentries]; constructor;
      [apply IH|exact IHentries].
Qed.

(** The values of a container pass [check_depth] one level down exactly
    when the container is empty or its deepest value fits. *)
Lemma all_fit {A} (f : A -> pyobj) max_depth d (xs : list A) :
  Forall (fun x => forall d', check_depth max_depth (f x) d' = true
                              <-> (d' + levels (f x) <= max_depth)%nat) xs ->
  forallb (fun x => check_depth max_depth (f x) (S d)) xs = true
  <-> xs = []
      \/ (S d + fold_right (fun x m => Nat.max (levels (f x)) m) 0%nat xs
          <= max_depth)%nat.
Proof.
  induction 1 as [|x xs Hx _ IH]; cbn [forallb fold_right].
  - split; [left; reflexivity|reflexivity].
  - rewrite andb_true_iff, Hx, IH. split.
    + intros [Hfit [->|Hrest]]; right; cbn [fold_right]; lia.
    + intros [Hnil|Hfit]; [discriminate|]. split; [lia|].
      destruct xs as [|y ys]; [left; reflexivity|right; lia].
Qed.

(** [check_depth] against the number of nested levels. *)
Lemma check_depth_fits max_depth obj current_depth :
  check_depth max_depth obj current_depth = true
  <-> (current_depth + levels obj <= max_depth)%nat.
Proof.
  revert current_depth.
  induction obj as [text|items IH|entries IH] using pyobj_nested_ind;
    intros d; cbn [check_depth];
    destruct (Nat.ltb_spec max_depth d) as [Hdeep|Hfits].
  - cbn [levels]. split; [discriminate|lia].
  - cbn [levels]. split; [lia|reflexivity].
  - split; [discriminate|lia].
  - rewrite (all_fit (fun item => item) max_depth d items IH).
    destruct items as [|item items]; cbn [levels]; [|split; [intros [|]; [discriminate|]|]; lia].
    split; [lia|left; reflexivity].
  - split; [discriminate|lia].
  - assert (Hsame :
      forallb (fun entry => let '(_, v) := entry in check_depth max_depth v (S d))
              entries
      = forallb (fun entry => check_depth max_depth (snd entry) (S d)) entries).
    { clear. induction entries as [|[key v] entries IHe]; cbn; congruence. }
    rewrite Hsame, (all_fit snd max_depth d entries IH).
    assert (Hfold :
      fold_right (fun entry m => let '(_, v) := entry in Nat.max (levels v) m)
                 0%nat entries
      = fold_right (fun entry m => Nat.max (levels (snd entry)) m) 0%nat entries).
    { clear. induction entries as [|[key v] entries IHe]; cbn; congruence. }
    destruct entries as [|entry entries]; cbn [levels].
    + split; [lia|left; reflexivity].
    + rewrite Hfold. split; [intros [|]; [discriminate|]|]; lia.
Qed.

Lemma check_depth_levels_0 obj :
  check_depth 10 obj 0 = true -> (levels obj <= 10)%nat.
Proof. intros H. apply check_depth_fits in H. lia. Qed.

(** X21. [check_depth] measures nesting: a value passes at depth
    [current_depth] exactly when that depth plus the number of levels
    nested in the value does not exceed [max_depth]; an empty list or
    dictionary counts no level of its own.  So a value that passes also
    passes at every smaller depth and under every larger bound, and wrapped
    in a list it passes exactly when it passes one level further down. *)
Theorem check_depth_counts_levels max_depth obj current_depth :
  (check_depth max_depth obj current_depth = true
   <-> (current_depth + levels obj <= max_depth)%nat)
  /\ (check_depth max_depth obj current_depth = true ->
      forall shallower larger,
        (shallower <= current_depth)%nat -> (max_depth <= larger)%nat ->
        check_depth larger obj shallower = true)
  /\ check_depth max_depth (PyList [obj]) current_depth
     = check_depth max_depth obj (S current_depth).
Proof.
  split; [apply check_depth_fits|]. split.
  - intros Hpass shallower larger Hdepth Hbound.
    apply check_depth_fits. apply check_depth_fits in Hpass. lia.
  - destruct (check_depth max_depth obj (S current_depth)) eqn:Hinner.
    + apply check_depth_fits. apply check_depth_fits in Hinner.
      cbn [levels fold_right]. lia.
    + destruct (check_depth max_depth (PyList [obj]) current_depth) eqn:Houter;
        [|reflexivity].
      apply check_depth_fits in Houter. cbn [levels fold_right] in Houter.
      assert (check_depth max_depth obj (S current_depth) = true)
        by (apply check_depth_fits; lia).
      congruence.
Qed.

Lemma lower_append a b : lower (a +:+ b) = lower a +:+ lower b.
Proof.
  induction a as [|c a IH]; [reflexivity|].
  change (String (lower_char c) (lower (a +:+ b))
          = String (lower_char c) (lower a +:+ lower b)).
  f_equal. exact IH.
Qed.

Lemma lower_split s : forall a b,
  lower s = a +:+ b -> exists a' b', s = a' +:+ b' /\ lower a' = a /\ lower b' = b.
Proof.
  induction s as [|c s IH]; intros a b H.
  - destruct a; [|discriminate]. destruct b; [|discriminate].
    exists "", "". repeat split.
  - destruct a as [|c' a].
    + exists "", (String c s). repeat split. exact H.
    + change (String (lower_char c) (lower s) = String c' (a +:+ b)) in H.
      inversion H as [[Hc Hrest]].
      destruct (IH a b Hrest) as (a' & b' & -> & <- & <-).
      exists (String c a'), b'. repeat split.
Qed.

Lemma is_infix_occurs pattern text :
  is_infix pattern text = true <-> exists pre post, text = pre +:+ pattern +:+ post.
Proof.
  induction text as [|c text IH].
  - cbn [is_infix]. rewrite orb_false_r. split.
    + intros H. destruct (ValidatorExtra.startswith_split _ _ H) as [tail Htail].
      exists "", tail. exact Htail.
    + intros (pre & post & H). destruct pre; [|discriminate].
      change (EmptyString = pattern +:+ post) in H. rewrite H.
      apply ValidatorExtra.startswith_append.
  - cbn [is_infix]. rewrite orb_true_iff, IH. split.
    + intros [H|(pre & post & ->)].
      * destruct (ValidatorExtra.startswith_split _ _ H) as [tail Htail].
        exists "", tail. exact Htail.
      * exists (String c pre), post. reflexivity.
    + intros (pre & post & H). destruct pre as [|c' pre].
      * left. change (String c text = pattern +:+ post) in H. rewrite H.
        apply ValidatorExtra.startswith_append.
      * right. change (String c text = String c' (pre +:+ pattern +:+ post)) in H.
        inversion H; subst. eauto.
Qed.

Lemma occurs_any_case_infix pattern text :
  occurs_any_case pattern text <-> is_infix pattern (lower text) = true.
Proof.
  rewrite is_infix_occurs. unfold occurs_any_case. split.
  - intros (pre & hit & post & -> & <-).
    exists (lower pre), (lower post). rewrite !lower_append. reflexivity.
  - intros (pre & post & H).
    destruct (lower_split _ _ _ H) as (pre' & tail & -> & _ & Htail).
    destruct (lower_split _ _ _ Htail) as (hit & post' & -> & Hhit & _).
    eauto.
Qed.

(** X22. What [validate_input] accepts: exactly the dictionaries with at
    least one key whose JSON text can be produced, is at most 10000
    characters long and holds none of [<script], [javascript:], [eval(] and
    [exec(] in any mixture of upper and lower case, and in which no more
    than ten levels of values are nested.  Everything that is not a
    dictionary is refused. *)
Theorem validate_input_accepts json_dumps data :
  validate_input json_dumps data = true
  <-> exists entries data_str,
        data = PyDictObj entries
        /\ entries <> []
        /\ json_dumps data = Some data_str
        /\ Z.of_nat (String.length data_str) <= 10000
        /\ (levels data <= 10)%nat
        /\ forall pattern, In pattern suspicious_patterns ->
                           ~ occurs_any_case pattern data_str.
Proof.
  unfold validate_input. split.
  - destruct data as [text|items|entries]; try discriminate.
    destruct entries as [|entry entries]; [discriminate|].
    cbn [List.length Nat.eqb].
    destruct (json_dumps _) as [data_str|] eqn:Hdumps; [|discriminate].
    destruct (Z.ltb_spec 10000 (Z.of_nat (String.length data_str))); [discriminate|].
    destruct (check_depth 10 _ 0) eqn:Hdepth; [|discriminate]. cbn [negb].
    destruct (existsb _ suspicious_patterns) eqn:Hpatterns; [discriminate|].
    intros _. exists (entry :: entries), data_str.
    split; [reflexivity|]. split; [discriminate|]. split; [reflexivity|].
    split; [assumption|].
    split; [apply check_depth_levels_0; exact Hdepth|].
    intros pattern Hin Hocc. apply occurs_any_case_infix in Hocc.
    assert (existsb (fun p => is_infix p (lower data_str)) suspicious_patterns = true)
      by (apply existsb_exists; eauto).
    congruence.
  - intros (entries & data_str & -> & Hnonempty & Hdumps & Hlen & Hdepth & Hpatterns).
    destruct entries as [|entry entries]; [congruence|].
    cbn [List.length Nat.eqb]. rewrite Hdumps.
    destruct (Z.ltb_spec 10000 (Z.of_nat (String.length data_str))); [lia|].
    rewrite (proj2 (check_depth_fits 10 _ 0) Hdepth). cbn [negb].
    destruct (existsb _ suspicious_patterns) eqn:Hhit; [|reflexivity].
    apply existsb_exists in Hhit. destruct Hhit as (pattern & Hin & Hinfix).
    apply occurs_any_case_infix in Hinfix. destruct (Hpatterns pattern Hin Hinfix).
Qed.

End WorkProcessorExtra.
